(** * Inkspired landing page: the prompt input, the decorative shapes and [cn]

    A shallow embedding of [src/PromptPage.tsx] (the [PromptInput],
    [ElegantShape] and [PromptPage] components) and of [lib/utils] ([cn]),
    followed by the properties the specification states about them.

    Part I holds the definitions, Part II the theorems. *)

From Stdlib Require Import List NArith ZArith QArith Bool Ascii String Lia.
Import ListNotations.

Local Open Scope list_scope.

(* ================================================================== *)
(** * Part I: definitions *)
(* ================================================================== *)

(** ** JavaScript strings

    A JavaScript string is a sequence of UTF-16 code units.  A code unit is
    kept as an [N]; the whitespace test below is total on [N], so nothing
    depends on the 16-bit bound. *)

Module JS.

Definition code_unit := N.
Definition jsstring := list code_unit.

(** The code units of an ASCII literal. *)
Fixpoint utf16 (s : string) : jsstring :=
  match s with
  | EmptyString => []
  | String a r => N_of_ascii a :: utf16 r
  end.

Fixpoint jsstring_eqb (a b : jsstring) : bool :=
  match a, b with
  | [], [] => true
  | x :: a', y :: b' => N.eqb x y && jsstring_eqb a' b'
  | _, _ => false
  end.

(** [s] is truthy, as a string, when it is not empty. *)
Definition nonEmpty (s : jsstring) : bool :=
  match s with [] => false | _ :: _ => true end.

(** ECMAScript's WhiteSpace and LineTerminator code points: what
    [String.prototype.trim] strips and what the regular expression class
    [\s] matches. *)
Definition isWhiteSpace (c : code_unit) : bool :=
  ((9 <=? c) && (c <=? 13) || (c =? 32) || (c =? 160) || (c =? 5760)
   || (8192 <=? c) && (c <=? 8202)
   || (c =? 8232) || (c =? 8233) || (c =? 8239) || (c =? 8287)
   || (c =? 12288) || (c =? 65279))%N.

Fixpoint trimStart (s : jsstring) : jsstring :=
  match s with
  | [] => []
  | c :: r => if isWhiteSpace c then trimStart r else s
  end.

Fixpoint trimEnd (s : jsstring) : jsstring :=
  match s with
  | [] => []
  | c :: r =>
      match trimEnd r with
      | [] => if isWhiteSpace c then [] else [c]
      | r' => c :: r'
      end
  end.

(** [String.prototype.trim]. *)
Definition trim (s : jsstring) : jsstring := trimEnd (trimStart s).

(** [s.trim().split(/\s+/)] without the empty pieces: the maximal runs of
    non-whitespace code units of [s], in order. *)
Fixpoint words (s : jsstring) : list jsstring :=
  match s with
  | [] => []
  | c :: r =>
      if isWhiteSpace c then words r
      else match r with
           | [] => [[c]]
           | d :: _ =>
               if isWhiteSpace d then [c] :: words r
               else match words r with
                    | w :: ws => (c :: w) :: ws
                    | [] => [[c]]
                    end
           end
  end.

(** A word, such as a class name: not empty and free of whitespace. *)
Definition isWord (w : jsstring) : Prop :=
  w <> [] /\ forallb (fun c => negb (isWhiteSpace c)) w = true.

Definition space : code_unit := 32%N.

(** [Array.prototype.join(' ')]. *)
Fixpoint join (l : list jsstring) : jsstring :=
  match l with
  | [] => []
  | [w] => w
  | w :: r => w ++ space :: join r
  end.

End JS.

Import JS.

(** ** lib/utils: [cn]

    [cn] is under [src/]; the two packages it calls, [clsx] and
    [tailwind-merge], are dependencies whose code is not. *)

Module Utils.

#[local] Set Warnings "-register-all".

(** Modelled from the spec: the [ClassValue] type of the [clsx] package,
    which is not under [src/].  A fragment is a string, the value of a
    conditional expression (a string or a falsy value such as [false],
    [null] or [undefined]; [true] is possible and carries no class), or a
    nested collection of fragments. *)
Inductive ClassValue : Type :=
| CVString (s : jsstring)
| CVBoolean (b : bool)
| CVNull
| CVUndefined
| CVArray (items : list ClassValue).

(** JavaScript truthiness of a fragment. *)
Definition truthy (v : ClassValue) : bool :=
  match v with
  | CVString s => nonEmpty s
  | CVBoolean b => b
  | CVNull | CVUndefined => false
  | CVArray _ => true
  end.

(** [str && (str += ' '); str += y], done when [y] is not empty. *)
Definition appendClass (str y : jsstring) : jsstring :=
  if nonEmpty y then (if nonEmpty str then str ++ space :: y else y) else str.

(** Modelled from the spec: [clsx]'s value of one fragment, which is not
    under [src/]: a string stands for itself, a collection for the
    space-separated values of its truthy entries, anything else for
    nothing. *)
Fixpoint toVal (mix : ClassValue) : jsstring :=
  match mix with
  | CVString s => s
  | CVArray items =>
      fold_left
        (fun str x => if truthy x then appendClass str (toVal x) else str)
        items []
  | _ => []
  end.

(** Modelled from the spec: [clsx(...arguments)], which is not under
    [src/]: falsy arguments are ignored, the others contribute their
    value, space-separated. *)
Definition clsx (arguments : list ClassValue) : jsstring :=
  fold_left
    (fun str x => if truthy x then appendClass str (toVal x) else str)
    arguments [].

(** Modelled from the spec: Tailwind's table of utility classes, which is
    part of [tailwind-merge] and not under [src/].  [classGroupId c] is the
    category of the class [c] (the CSS property it targets, together with
    its variants), or [None] when [c] is not a Tailwind utility;
    [conflictingClassGroupIds g] lists the further categories a class of
    category [g] overrides. *)
Record Config : Type := {
  classGroupId : jsstring -> option jsstring;
  conflictingClassGroupIds : jsstring -> list jsstring
}.

Definition includes (g : jsstring) (l : list jsstring) : bool :=
  existsb (jsstring_eqb g) l.

Section Merge.

Variable config : Config.

(** Modelled from the spec: the merge loop of [tailwind-merge], which is
    not under [src/].  The class names are visited from the last to the
    first ([pending], most recent first); a class whose category is
    already in [classGroupsInConflict] is dropped, any other class is kept
    in front of [result] and records its category and the categories it
    overrides. *)
Fixpoint mergeLoop (pending : list jsstring)
         (classGroupsInConflict : list jsstring) (result : list jsstring)
  : list jsstring :=
  match pending with
  | [] => result
  | c :: earlier =>
      match classGroupId config c with
      | None => mergeLoop earlier classGroupsInConflict (c :: result)
      | Some g =>
          if includes g classGroupsInConflict
          then mergeLoop earlier classGroupsInConflict result
          else mergeLoop earlier
                 (g :: conflictingClassGroupIds config g
                    ++ classGroupsInConflict)
                 (c :: result)
      end
  end.

Definition mergeClassList (classNames : list jsstring) : list jsstring :=
  mergeLoop (rev classNames) [] [].

(** Modelled from the spec: [twMerge], which is not under [src/]: the
    class list is split at whitespace, merged, and joined by one space. *)
Definition twMerge (classList : jsstring) : jsstring :=
  join (mergeClassList (words classList)).

(** [export function cn(...inputs) { return twMerge(clsx(inputs)); }]:
    [clsx] receives the array of inputs as its one argument. *)
Definition cn (inputs : list ClassValue) : jsstring :=
  twMerge (clsx [CVArray inputs]).

End Merge.

(** The class names [cn] is given, in the order listed. *)
Definition classNames (inputs : list ClassValue) : list jsstring :=
  words (clsx [CVArray inputs]).

(** The classes one entry of a collection contributes. *)
Definition fragmentClasses (v : ClassValue) : list jsstring :=
  if truthy v then words (toVal v) else [].

(** [keepTruthy f items]: the truthy entries of [items], each through [f]. *)
Definition keepTruthy (f : ClassValue -> ClassValue)
  : list ClassValue -> list ClassValue :=
  fix keep (l : list ClassValue) : list ClassValue :=
    match l with
    | [] => []
    | x :: r => if truthy x then f x :: keep r else keep r
    end.

(** [prune v] is [v] without its falsy entries, at every depth. *)
Fixpoint prune (v : ClassValue) : ClassValue :=
  match v with
  | CVArray items => CVArray (keepTruthy prune items)
  | _ => v
  end.

(** [overrides config d c]: the class [d], listed after [c], takes the
    place of [c]: both are Tailwind utilities and the category of [d] is
    that of [c] or one that overrides it. *)
Definition overrides (config : Config) (d c : jsstring) : Prop :=
  exists gc gd, classGroupId config c = Some gc
                /\ classGroupId config d = Some gd
                /\ (gd = gc \/ In gc (conflictingClassGroupIds config gd)).

Definition textRed500 : jsstring := utf16 "text-red-500".
Definition textBlue500 : jsstring := utf16 "text-blue-500".

(** A fragment of a class table, for examples: the text colours and the
    background colours used below, one category each, and the two padding
    categories [p] and [px], the first overriding the second. *)
Definition sampleGroup (c : jsstring) : option jsstring :=
  if includes c (map utf16 ["text-red-500"; "text-blue-500"; "text-white";
                            "text-white/40"]%string)
  then Some (utf16 "text-color")
  else if includes c (map utf16 ["bg-white/10"; "bg-black"]%string)
  then Some (utf16 "bg-color")
  else if jsstring_eqb c (utf16 "p-4") then Some (utf16 "p")
  else if jsstring_eqb c (utf16 "px-2") then Some (utf16 "px")
  else None.

Definition sampleConfig : Config := {|
  classGroupId := sampleGroup;
  conflictingClassGroupIds := fun g =>
    if jsstring_eqb g (utf16 "p") then [utf16 "px"] else []
|}.

End Utils.

(** ** The DOM side of the prompt input: the textarea and its events *)

Module Dom.

(** The inline [style.height] of an element. *)
Inductive CssHeight : Type :=
| Auto
| Px (n : N).

(** The textarea the component's ref points to: its content, its inline
    height and its selection (a caret when both ends agree). *)
Record HTMLTextAreaElement : Type := {
  value : jsstring;
  style_height : CssHeight;
  selectionStart : nat;
  selectionEnd : nat
}.

Definition set_style_height (h : CssHeight) (el : HTMLTextAreaElement)
  : HTMLTextAreaElement :=
  {| value := value el; style_height := h;
     selectionStart := selectionStart el; selectionEnd := selectionEnd el |}.

Definition lineFeed : code_unit := 10%N.
Definition carriageReturn : code_unit := 13%N.

(** The newline normalisation of a textarea's value: a carriage return
    followed by a line feed, and a carriage return on its own, each become
    one line feed. *)
Fixpoint normalizeNewlines (s : jsstring) : jsstring :=
  match s with
  | [] => []
  | c :: r =>
      if N.eqb c carriageReturn then
        lineFeed :: match r with
                    | d :: r' =>
                        if N.eqb d lineFeed then normalizeNewlines r'
                        else normalizeNewlines r
                    | [] => []
                    end
      else c :: normalizeNewlines r
  end.

(** Giving the textarea a new value: what [el.value] then reads is the
    value with its newlines normalised, and the caret is at its end. *)
Definition set_value (v : jsstring) (el : HTMLTextAreaElement)
  : HTMLTextAreaElement :=
  {| value := normalizeNewlines v; style_height := style_height el;
     selectionStart := List.length (normalizeNewlines v);
     selectionEnd := List.length (normalizeNewlines v) |}.

Definition set_selection (a b : nat) (el : HTMLTextAreaElement)
  : HTMLTextAreaElement :=
  {| value := value el; style_height := style_height el;
     selectionStart := Nat.min a (List.length (value el));
     selectionEnd := Nat.min (Nat.max a b) (List.length (value el)) |}.

(** The user agent's text insertion: [t] replaces the selection and the
    caret ends up after it. *)
Definition insertText (t : jsstring) (el : HTMLTextAreaElement)
  : HTMLTextAreaElement :=
  let a := Nat.min (selectionStart el) (List.length (value el)) in
  let b := Nat.max a (selectionEnd el) in
  {| value := firstn a (value el) ++ t ++ skipn b (value el);
     style_height := style_height el;
     selectionStart := a + List.length t;
     selectionEnd := a + List.length t |}.

(** The fields of a [React.KeyboardEvent] the component reads. *)
Record KeyboardEvent : Type := {
  key : jsstring;
  shiftKey : bool
}.

Definition Enter : jsstring := utf16 "Enter".

(** A press of the Enter key, with or without Shift. *)
Definition enterKey (shift : bool) : KeyboardEvent :=
  {| key := Enter; shiftKey := shift |}.

(** What a textarea does with a key press nobody prevented: Enter, with or
    without Shift, inserts a line break; a key naming one code unit inserts
    it; the other keys insert nothing (the edits they make arrive as
    [Replace] below). *)
Definition defaultInsertion (e : KeyboardEvent) : option jsstring :=
  if jsstring_eqb (key e) Enter then Some [lineFeed]
  else match key e with
       | [c] => Some [c]
       | _ => None
       end.

End Dom.

Import Dom.

(** ** PromptPage.tsx: [PromptInput] *)

Module PromptInput.

Import Utils.

(** The state of a mounted [PromptInput]: [useState('')] and
    [useRef(null)]. *)
Record State : Type := {
  input : jsstring;
  textareaRef : option HTMLTextAreaElement
}.

(** What running a handler did: whether [e.preventDefault()] was called,
    the state it leaves, and the arguments of its calls of [onSend], in
    order. *)
Record Handled : Type := {
  defaultPrevented : bool;
  after : State;
  sent : list jsstring
}.

(** [handleSubmit]: if the trimmed draft is truthy, [onSend(input)],
    [setInput('')] and, with a textarea at hand, [style.height = 'auto']. *)
Definition handleSubmit (st : State) : State * list jsstring :=
  if nonEmpty (trim (input st)) then
    ({| input := [];
        textareaRef := option_map (set_style_height Auto) (textareaRef st) |},
     [input st])
  else (st, []).

(** [handleKeyDown]: [e.key === 'Enter' && !e.shiftKey] prevents the
    default action and submits. *)
Definition handleKeyDown (e : KeyboardEvent) (st : State) : Handled :=
  if jsstring_eqb (key e) Enter && negb (shiftKey e) then
    let (st', calls) := handleSubmit st in
    {| defaultPrevented := true; after := st'; sent := calls |}
  else {| defaultPrevented := false; after := st; sent := [] |}.

(** [onChange={(e) => setInput(e.target.value)}]. *)
Definition onChange (target : HTMLTextAreaElement) (st : State) : State :=
  {| input := value target; textareaRef := textareaRef st |}.

(** [const hasContent = input.trim() !== '']. *)
Definition hasContent (st : State) : bool :=
  negb (jsstring_eqb (trim (input st)) []).

(** The props of the rendered send button. *)
Record SendButton : Type := {
  disabled : bool;
  className : jsstring
}.

Definition sendBase : jsstring :=
  utf16 "flex h-9 w-9 items-center justify-center rounded-full transition-all".
Definition sendEmphasized : jsstring :=
  utf16 "bg-gradient-to-r from-purple-500 to-pink-500 text-white hover:from-purple-600 hover:to-pink-600 shadow-lg".
Definition sendMuted : jsstring :=
  utf16 "bg-white/10 text-white/40 cursor-not-allowed".

Section Component.

(** Tailwind's class table, for [cn]. *)
Variable config : Config.

(** The layout engine: the [scrollHeight] of the textarea, in pixels, as
    a function of its content and of its inline height. *)
Variable layout : jsstring -> CssHeight -> N.

(** [textareaRef.current.scrollHeight]. *)
Definition scrollHeight (el : HTMLTextAreaElement) : N :=
  layout (value el) (style_height el).

(** [<button onClick={handleSubmit} disabled={!hasContent}
    className={cn(base, hasContent ? emphasized : muted)}>]. *)
Definition sendButton (st : State) : SendButton :=
  {| disabled := negb (hasContent st);
     className :=
       cn config
          [CVString sendBase;
           CVString (if hasContent st then sendEmphasized else sendMuted)]
  |}.

(** The body of the auto-resize effect: with a textarea at hand, the
    height is set to ['auto'], then to [min(scrollHeight, 200)] pixels. *)
Definition autoResize (st : State) : State :=
  match textareaRef st with
  | Some el =>
      let el1 := set_style_height Auto el in
      let el2 := set_style_height (Px (N.min (scrollHeight el1) 200)) el1 in
      {| input := input st; textareaRef := Some el2 |}
  | None => st
  end.

(** React writes the controlled [value={input}] to the textarea when the
    two differ. *)
Definition syncValue (st : State) : State :=
  match textareaRef st with
  | Some el =>
      if jsstring_eqb (value el) (input st) then st
      else {| input := input st;
              textareaRef := Some (set_value (input st) el) |}
  | None => st
  end.

(** The render after a handler ran: the value is synchronised, and the
    effect, whose dependency list is [[input]], runs when [input] differs
    from [prev], its value at the previous render. *)
Definition rerender (prev : jsstring) (st : State) : State :=
  let st1 := syncValue st in
  if jsstring_eqb prev (input st1) then st1 else autoResize st1.

(** The first render and mount: the draft is empty, the ref is attached
    and the effect runs. *)
Definition mount : State :=
  autoResize
    {| input := [];
       textareaRef :=
         Some {| value := []; style_height := Auto;
                 selectionStart := 0; selectionEnd := 0 |} |}.

(** What the user can do to a mounted prompt input. *)
Inductive UserEvent : Type :=
| Press (e : KeyboardEvent)     (* a key goes down in the textarea *)
| ClickSend                     (* a click on the send button *)
| ClickInert                    (* a click on the image, microphone or
                                   suggestion buttons: no handler *)
| Replace (v : jsstring)        (* any other edit (paste, cut, delete):
                                   the field is given the text [v] *)
| Select (a b : nat).           (* the selection is moved *)

Definition withTextarea (f : HTMLTextAreaElement -> HTMLTextAreaElement)
           (st : State) : State :=
  {| input := input st; textareaRef := option_map f (textareaRef st) |}.

(** One user event, up to and including the render and effects it causes:
    the resulting state and the arguments [onSend] was called with. *)
Definition step (st : State) (ev : UserEvent) : State * list jsstring :=
  match textareaRef st with
  | None => (st, [])
  | Some el =>
      match ev with
      | Press e =>
          let h := handleKeyDown e st in
          if defaultPrevented h then (rerender (input st) (after h), sent h)
          else
            match defaultInsertion e with
            | Some t =>
                let el' := insertText t el in
                let st1 := withTextarea (fun _ => el') (after h) in
                (rerender (input st) (onChange el' st1), sent h)
            | None => (rerender (input st) (after h), sent h)
            end
      | ClickSend =>
          if disabled (sendButton st) then (st, [])
          else let (st', calls) := handleSubmit st in
               (rerender (input st) st', calls)
      | ClickInert => (st, [])
      | Replace v =>
          let el' := set_value v el in
          let st1 := withTextarea (fun _ => el') st in
          (rerender (input st) (onChange el' st1), [])
      | Select a b => (withTextarea (set_selection a b) st, [])
      end
  end.

(** A sequence of user events: the final state and every argument of
    [onSend], in call order. *)
Fixpoint run (st : State) (evs : list UserEvent) : State * list jsstring :=
  match evs with
  | [] => (st, [])
  | ev :: rest =>
      let (st1, calls1) := step st ev in
      let (st2, calls2) := run st1 rest in
      (st2, calls1 ++ calls2)
  end.

(** Typing the characters of [s], one key press each. *)
Definition typing (s : jsstring) : list UserEvent :=
  map (fun c => Press {| key := [c]; shiftKey := false |}) s.

(** The inline height, in pixels, the effect gives a field holding [v]. *)
Definition fittedHeight (v : jsstring) : N := N.min (layout v Auto) 200.

(** [fitted st]: the textarea is attached, shows the draft and has the
    height the effect computes for it. *)
Definition fitted (st : State) : Prop :=
  exists el, textareaRef st = Some el /\ value el = input st
             /\ style_height el = Px (fittedHeight (input st)).

End Component.

(** [isSubmission ev]: [ev] is a press of Enter without Shift or a click on
    the send button. *)
Definition isSubmission (ev : UserEvent) : bool :=
  match ev with
  | Press e => jsstring_eqb (key e) Enter && negb (shiftKey e)
  | ClickSend => true
  | _ => false
  end.

(** [blank s]: [s] is made of whitespace only, so that [s.trim()] is
    falsy. *)
Definition blank (s : jsstring) : bool := forallb isWhiteSpace s.

Definition attached (st : State) : bool :=
  match textareaRef st with Some _ => true | None => false end.

(** [settledField layout v]: a textarea holding [v], at the height the
    effect gives it, with the caret at the end. *)
Definition settledField (layout : jsstring -> CssHeight -> N) (v : jsstring)
  : HTMLTextAreaElement :=
  {| value := v;
     style_height := Px (fittedHeight layout v);
     selectionStart := List.length v;
     selectionEnd := List.length v |}.

(** [settled layout v]: the mounted input whose draft and field are [v]. *)
Definition settled (layout : jsstring -> CssHeight -> N) (v : jsstring)
  : State :=
  {| input := v; textareaRef := Some (settledField layout v) |}.

(** Composing a message and sending it: the field is made to hold [m] and
    the send button is clicked. *)
Definition sendRound (m : jsstring) : list UserEvent := [Replace m; ClickSend].

(** A layout for examples: 24 pixels a line, 40 of padding, never less
    than the inline height. *)
Definition sampleLayout (v : jsstring) (h : CssHeight) : N :=
  let lines := N.of_nat (S (count_occ N.eq_dec v lineFeed)) in
  let content := (40 + 24 * lines)%N in
  match h with
  | Auto => N.max content 60
  | Px h => N.max content h
  end.

End PromptInput.

(** ** Rendered markup *)

Module Markup.

#[local] Set Warnings "-register-all".

(** An element of the rendered tree: its tag, its [className], the names
    of the event handlers bound to it and its child elements (text is left
    out). *)
Inductive Node : Type :=
| El (tag : string) (className : jsstring) (handlers : list string)
     (children : list Node).

Definition classOf (n : Node) : jsstring :=
  match n with El _ c _ _ => c end.
Definition handlersOf (n : Node) : list string :=
  match n with El _ _ h _ => h end.
Definition childrenOf (n : Node) : list Node :=
  match n with El _ _ _ k => k end.

(** The classes of an element, as the browser reads the attribute. *)
Definition classList (n : Node) : list jsstring := words (classOf n).

(** Every element of a tree, the root first. *)
Fixpoint nodes (n : Node) : list Node :=
  match n with
  | El _ _ _ k => n :: flat_map nodes k
  end.

(** The CSS property [pointer-events], as far as Tailwind's two utilities
    set it: it is inherited unless the element carries one of them. *)
Inductive PointerEvents : Type := PEAuto | PENone.

Definition pointerEventsNone : jsstring := utf16 "pointer-events-none".
Definition pointerEventsAuto : jsstring := utf16 "pointer-events-auto".

Definition pointerEvents (inherited : PointerEvents) (n : Node)
  : PointerEvents :=
  if Utils.includes pointerEventsAuto (classList n) then PEAuto
  else if Utils.includes pointerEventsNone (classList n) then PENone
  else inherited.

(** [interceptsPointer inherited n]: some element of the tree [n] is a
    target of pointer events, [inherited] being the value of
    [pointer-events] on the parent of [n]. *)
Fixpoint interceptsPointer (inherited : PointerEvents) (n : Node) : bool :=
  match n with
  | El _ _ _ k =>
      let pe := pointerEvents inherited n in
      match pe with PEAuto => true | PENone => false end
      || existsb (interceptsPointer pe) k
  end.

End Markup.

Import Markup.

(** ** components/ElegantShape *)

Module Shape.

Import Utils.

(** The props of [ElegantShape]; an absent prop is [None]. *)
Record Props : Type := {
  className : option jsstring;
  delay : option Q;
  width : option Z;
  height : option Z;
  rotate : option Z;
  gradient : option jsstring
}.

(** The destructuring defaults of the component. *)
Definition delayOf (p : Props) : Q := match delay p with Some d => d | None => 0 end.
Definition widthOf (p : Props) : Z := match width p with Some w => w | None => 400%Z end.
Definition heightOf (p : Props) : Z := match height p with Some h => h | None => 100%Z end.
Definition rotateOf (p : Props) : Z := match rotate p with Some r => r | None => 0%Z end.
Definition gradientOf (p : Props) : jsstring :=
  match gradient p with Some g => g | None => utf16 "from-white/[0.08]" end.

(** An optional prop as a class fragment: [undefined] when absent. *)
Definition fragment (c : option jsstring) : ClassValue :=
  match c with Some s => CVString s | None => CVUndefined end.

(** The targets of the entrance animation: [(opacity, y, rotate)]. *)
Definition initialPose (p : Props) : Z * Z * Z := (0, -150, rotateOf p - 15)%Z.
Definition animatePose (p : Props) : Z * Z * Z := (1, 0, rotateOf p)%Z.

Section Render.

Variable config : Config.

(** The markup [ElegantShape] returns: a positioned [motion.div], the
    floating [motion.div] and the pill. *)
Definition ElegantShape (p : Props) : Node :=
  El "motion.div" (cn config [CVString (utf16 "absolute"); fragment (className p)]) []
    [El "motion.div" (utf16 "relative") []
       [El "div"
           (cn config
               [CVString (utf16 "absolute inset-0 rounded-full");
                CVString (utf16 "bg-gradient-to-r to-transparent");
                CVString (gradientOf p);
                CVString (utf16 "backdrop-blur-[2px] border-2 border-white/[0.15]");
                CVString (utf16 "shadow-[0_8px_32px_0_rgba(255,255,255,0.1)]");
                CVString (utf16 "after:absolute after:inset-0 after:rounded-full");
                CVString (utf16 "after:bg-[radial-gradient(circle_at_50%_50%,rgba(255,255,255,0.2),transparent_70%)]")])
           [] []]].

End Render.

End Shape.

(** ** PromptPage.tsx: [PromptPage] *)

Module Page.

Import Utils.

Definition mkShape (d : Q) (w h r : Z) (g c : string) : Shape.Props :=
  {| Shape.className := Some (utf16 c); Shape.delay := Some d;
     Shape.width := Some w; Shape.height := Some h; Shape.rotate := Some r;
     Shape.gradient := Some (utf16 g) |}.

(** The four shapes the page instantiates, in source order. *)
Definition shapes : list Shape.Props :=
  [ mkShape (3 # 10) 600 140 12 "from-purple-500/[0.15]"
      "left-[-10%] md:left-[-5%] top-[15%] md:top-[20%]";
    mkShape (5 # 10) 500 120 (-15) "from-pink-500/[0.15]"
      "right-[-5%] md:right-[0%] top-[70%] md:top-[75%]";
    mkShape (4 # 10) 300 80 (-8) "from-violet-500/[0.15]"
      "left-[5%] md:left-[10%] bottom-[5%] md:bottom-[10%]";
    mkShape (6 # 10) 200 60 20 "from-fuchsia-500/[0.15]"
      "right-[15%] md:right-[20%] top-[10%] md:top-[15%]" ].

Definition rootClass : jsstring :=
  utf16 "relative min-h-screen w-full flex items-center justify-center overflow-hidden bg-[#030303]".
Definition ambientClass : jsstring :=
  utf16 "absolute inset-0 bg-gradient-to-br from-purple-500/[0.05] via-transparent to-pink-500/[0.05] blur-3xl".
Definition shapesClass : jsstring := utf16 "absolute inset-0 overflow-hidden".
Definition contentClass : jsstring :=
  utf16 "relative z-10 container mx-auto px-4 md:px-6".
Definition overlayClass : jsstring :=
  utf16 "absolute inset-0 bg-gradient-to-t from-[#030303] via-transparent to-[#030303]/80 pointer-events-none".

Section Render.

Variable config : Config.

(** The container of the floating background shapes. *)
Definition shapesLayer : Node :=
  El "div" shapesClass [] (map (Shape.ElegantShape config) shapes).

(** The page, down to the shapes; [content] stands for the children of
    the main content container (badge, title, copy, prompt input and
    footer). *)
Definition PromptPage (content : list Node) : Node :=
  El "div" rootClass []
    [ El "div" ambientClass [] [];
      shapesLayer;
      El "div" contentClass [] content;
      El "div" overlayClass [] [] ].

(** The value of [pointer-events] the shapes inherit from the page: that
    of their container, under the root, under the browser's default. *)
Definition inheritedByShapes : PointerEvents :=
  pointerEvents (pointerEvents PEAuto (El "div" rootClass [] [])) shapesLayer.

End Render.

(** A shape of the page leaves pointer events alone: no element of its
    markup is a target of them. *)
Definition shapeIgnoresPointer (config : Config) (p : Shape.Props) : Prop :=
  interceptsPointer (inheritedByShapes config)
                    (Shape.ElegantShape config p) = false.

(** What the code gives: no element of the shape binds a handler or carries
    [pointer-events-none], and the shape is a target of pointer events. *)
Definition shapeBindsNothing (config : Config) (p : Shape.Props) : Prop :=
  Forall (fun n => handlersOf n = []
                   /\ Utils.includes pointerEventsNone (classList n) = false)
         (nodes (Shape.ElegantShape config p))
  /\ interceptsPointer (inheritedByShapes config)
                       (Shape.ElegantShape config p) = true.


End Page.

(* ================================================================== *)
(** * Part II: theorems *)
(* ================================================================== *)

(** ** Facts about JavaScript strings *)

Module JSFacts.

Lemma jsstring_eqb_eq (a b : jsstring) : jsstring_eqb a b = true <-> a = b.
Proof.
  revert b; induction a as [|x a IH]; intros [|y b]; simpl;
    try (split; [discriminate | discriminate]); [tauto|].
  rewrite andb_true_iff, N.eqb_eq, IH.
  split; [intros [-> ->]; reflexivity | intros [= -> ->]; auto].
Qed.

Lemma jsstring_eqb_refl (a : jsstring) : jsstring_eqb a a = true.
Proof. now apply jsstring_eqb_eq. Qed.

Lemma jsstring_eqb_neq (a b : jsstring) : jsstring_eqb a b = false <-> a <> b.
Proof.
  rewrite <- jsstring_eqb_eq. destruct (jsstring_eqb a b); split; congruence.
Qed.

Lemma jsstring_eqb_nil (s : jsstring) : jsstring_eqb s [] = negb (nonEmpty s).
Proof. destruct s; reflexivity. Qed.

Lemma nonEmpty_false (s : jsstring) : nonEmpty s = false <-> s = [].
Proof. destruct s; simpl; split; congruence. Qed.

Lemma nonEmpty_true (s : jsstring) : nonEmpty s = true <-> s <> [].
Proof. destruct s; simpl; split; congruence. Qed.

Lemma trimEnd_nil (s : jsstring) :
  trimEnd s = [] <-> forallb isWhiteSpace s = true.
Proof.
  induction s as [|c r IH]; simpl; [tauto|].
  rewrite andb_true_iff, <- IH.
  destruct (trimEnd r) as [|d r']; destruct (isWhiteSpace c); split;
    intros H; try discriminate; try tauto; destruct H; discriminate.
Qed.

Lemma forallb_trimStart (s : jsstring) :
  forallb isWhiteSpace (trimStart s) = forallb isWhiteSpace s.
Proof.
  induction s as [|c r IH]; simpl; [reflexivity|].
  destruct (isWhiteSpace c) eqn:E; simpl; [exact IH | now rewrite E].
Qed.

(** The trimmed form is empty exactly for the strings made of whitespace
    only, the empty string among them. *)
Lemma trim_nil (s : jsstring) :
  trim s = [] <-> forallb isWhiteSpace s = true.
Proof. unfold trim. now rewrite trimEnd_nil, forallb_trimStart. Qed.

Lemma trim_not_nil (s : jsstring) :
  trim s <> [] <-> exists c, In c s /\ isWhiteSpace c = false.
Proof.
  rewrite trim_nil. split.
  - intros H. induction s as [|c r IH]; simpl in *; [congruence|].
    destruct (isWhiteSpace c) eqn:E.
    + destruct IH as (d & Hd & Hw); [exact H|]. exists d; auto.
    + exists c; auto.
  - intros (c & Hc & Hw) Hall. rewrite forallb_forall in Hall.
    rewrite (Hall c Hc) in Hw. discriminate.
Qed.

End JSFacts.

Import JSFacts.

(** ** The prompt input *)

Module PromptInputFacts.

Import Utils PromptInput.

Lemma handleSubmit_sends (st : State) :
  trim (input st) <> [] ->
  handleSubmit st =
    ({| input := [];
        textareaRef := option_map (set_style_height Auto) (textareaRef st) |},
     [input st]).
Proof.
  intros H. unfold handleSubmit. apply nonEmpty_true in H. now rewrite H.
Qed.

Lemma handleSubmit_guard (st : State) :
  trim (input st) = [] -> handleSubmit st = (st, []).
Proof.
  intros H. unfold handleSubmit. apply nonEmpty_false in H. now rewrite H.
Qed.

Lemma hasContent_trim (st : State) :
  hasContent st = nonEmpty (trim (input st)).
Proof.
  unfold hasContent. now rewrite jsstring_eqb_nil, negb_involutive.
Qed.

Lemma handleKeyDown_enter (st : State) :
  handleKeyDown (enterKey false) st =
    {| defaultPrevented := true;
       after := fst (handleSubmit st);
       sent := snd (handleSubmit st) |}.
Proof.
  unfold handleKeyDown, enterKey; cbn [key shiftKey].
  rewrite jsstring_eqb_refl; cbn [negb andb].
  now destruct (handleSubmit st).
Qed.

Lemma handleKeyDown_shift_enter (st : State) :
  handleKeyDown (enterKey true) st =
    {| defaultPrevented := false; after := st; sent := [] |}.
Proof.
  unfold handleKeyDown, enterKey; cbn [key shiftKey].
  now rewrite jsstring_eqb_refl.
Qed.

Lemma input_syncValue (st : State) : input (syncValue st) = input st.
Proof.
  unfold syncValue. destruct (textareaRef st) as [el|]; [|reflexivity].
  now destruct (jsstring_eqb (value el) (input st)).
Qed.

Section Component.

Variable config : Config.
Variable layout : jsstring -> CssHeight -> N.

Lemma input_autoResize (st : State) :
  input (autoResize layout st) = input st.
Proof. unfold autoResize. now destruct (textareaRef st). Qed.

Lemma input_rerender (prev : jsstring) (st : State) :
  input (rerender layout prev st) = input st.
Proof.
  unfold rerender.
  destruct (jsstring_eqb prev (input (syncValue st)));
    now rewrite ?input_autoResize, input_syncValue.
Qed.

Lemma step_enter (st : State) (el : HTMLTextAreaElement) :
  textareaRef st = Some el ->
  step config layout st (Press (enterKey false)) =
    (rerender layout (input st) (fst (handleSubmit st)),
     snd (handleSubmit st)).
Proof.
  intros Hel. unfold step; rewrite Hel.
  now rewrite handleKeyDown_enter.
Qed.

Lemma step_click (st : State) (el : HTMLTextAreaElement) :
  textareaRef st = Some el ->
  step config layout st ClickSend =
    if hasContent st
    then (rerender layout (input st) (fst (handleSubmit st)),
          snd (handleSubmit st))
    else (st, []).
Proof.
  intros Hel. unfold step; rewrite Hel; cbn [disabled sendButton].
  destruct (hasContent st); cbn [negb]; [|reflexivity].
  now destruct (handleSubmit st).
Qed.


Lemma submission_sends (v : jsstring) (el : HTMLTextAreaElement) :
  trim v <> [] ->
  let st := {| input := v; textareaRef := Some el |} in
  (snd (step config layout st (Press (enterKey false))) = [v]
   /\ input (fst (step config layout st (Press (enterKey false)))) = [])
  /\ (snd (step config layout st ClickSend) = [v]
      /\ input (fst (step config layout st ClickSend)) = []).
Proof.
  intros H st.
  assert (Hs : handleSubmit st =
               ({| input := [];
                   textareaRef := Some (set_style_height Auto el) |}, [v]))
    by (apply (handleSubmit_sends st); exact H).
  rewrite (step_enter st el eq_refl), (step_click st el eq_refl).
  rewrite hasContent_trim. apply nonEmpty_true in H.
  cbn [input st]. rewrite H, Hs.
  cbn [fst snd]. rewrite input_rerender. cbn [input]. repeat split.
Qed.

Lemma hello_typed :
  fst (run config layout (mount layout) (typing (utf16 "Hello")))
  = {| input := utf16 "Hello";
       textareaRef :=
         Some {| value := utf16 "Hello";
                 style_height := Px (fittedHeight layout (utf16 "Hello"));
                 selectionStart := 5; selectionEnd := 5 |} |}
  /\ snd (run config layout (mount layout) (typing (utf16 "Hello"))) = [].
Proof. split; vm_compute; reflexivity. Qed.

End Component.

(** C1. For every draft whose whitespace-trimmed form is not empty, each way
    of triggering a submission (the unmodified Enter key, a click on the
    send button) calls [onSend] exactly once, with the raw draft, and leaves
    the draft empty; typing "Hello" and pressing Enter calls [onSend] once,
    with "Hello", and leaves the draft empty. *)
Theorem submit_sends_raw_draft
        (config : Config) (layout : jsstring -> CssHeight -> N)
        (v : jsstring) (el : HTMLTextAreaElement) :
  trim v <> [] ->
  let st := {| input := v; textareaRef := Some el |} in
  let hello :=
    run config layout (mount layout)
        (typing (utf16 "Hello") ++ [Press (enterKey false)]) in
  (snd (step config layout st (Press (enterKey false))) = [v]
   /\ input (fst (step config layout st (Press (enterKey false)))) = [])
  /\ (snd (step config layout st ClickSend) = [v]
      /\ input (fst (step config layout st ClickSend)) = [])
  /\ (snd hello = [utf16 "Hello"] /\ input (fst hello) = []).
Proof.
  intros H st hello.
  destruct (submission_sends config layout v el H) as [Hkey Hclick].
  split; [exact Hkey|]. split; [exact Hclick|].
  subst hello. split; vm_compute; reflexivity.
Qed.

Lemma submit_sends_raw_draft_witness :
  let v := utf16 "  a koi fish " in
  let st := fst (step sampleConfig sampleLayout (mount sampleLayout) (Replace v)) in
  snd (step sampleConfig sampleLayout st ClickSend) = [v]
  /\ input (fst (step sampleConfig sampleLayout st ClickSend)) = [].
Proof.
  refine (proj1 (proj2
    (submit_sends_raw_draft sampleConfig sampleLayout (utf16 "  a koi fish ")
       {| value := utf16 "  a koi fish "; style_height := Px 64;
          selectionStart := 13; selectionEnd := 13 |} _))).
  vm_compute. discriminate.
Defined.

(** C2. For every draft made of whitespace only, the empty draft among
    them, triggering a submission leaves the draft as it is and does not
    call [onSend]; and [handleSubmit] has no other way of not sending: on
    every state it either finds the trimmed draft empty and does nothing, or
    sends the draft. *)
Theorem whitespace_draft_not_submitted
        (config : Config) (layout : jsstring -> CssHeight -> N)
        (v : jsstring) (el : HTMLTextAreaElement) :
  forallb isWhiteSpace v = true ->
  let st := {| input := v; textareaRef := Some el |} in
  (snd (step config layout st (Press (enterKey false))) = []
   /\ input (fst (step config layout st (Press (enterKey false)))) = v)
  /\ step config layout st ClickSend = (st, [])
  /\ handleSubmit st = (st, [])
  /\ (forall st0 : State,
        (trim (input st0) = [] /\ handleSubmit st0 = (st0, []))
        \/ (trim (input st0) <> []
            /\ snd (handleSubmit st0) = [input st0]
            /\ input (fst (handleSubmit st0)) = [])).
Proof.
  intros H st. apply trim_nil in H.
  assert (Hs : handleSubmit st = (st, [])) by (apply handleSubmit_guard; exact H).
  rewrite (step_enter config layout st el eq_refl).
  rewrite (step_click config layout st el eq_refl).
  rewrite hasContent_trim. cbn [input st]. rewrite H, Hs. cbn [fst snd nonEmpty].
  rewrite input_rerender. repeat split.
  intros st0. destruct (trim (input st0)) as [|c r] eqn:E.
  - left. split; [reflexivity|]. now apply handleSubmit_guard.
  - right. split; [discriminate|].
    rewrite handleSubmit_sends by (rewrite E; discriminate). now split.
Qed.

Lemma whitespace_draft_not_submitted_witness :
  let v := [space; 9; lineFeed; 160; 8195]%N in
  let st := fst (step sampleConfig sampleLayout (mount sampleLayout) (Replace v)) in
  step sampleConfig sampleLayout st ClickSend = (st, [])
  /\ snd (step sampleConfig sampleLayout st (Press (enterKey false))) = [].
Proof.
  pose proof
    (whitespace_draft_not_submitted sampleConfig sampleLayout
       [space; 9; lineFeed; 160; 8195]%N
       {| value := [space; 9; lineFeed; 160; 8195]%N; style_height := Px 88;
          selectionStart := 5; selectionEnd := 5 |} eq_refl) as H.
  split; [exact (proj1 (proj2 H)) | exact (proj1 (proj1 H))].
Defined.

Lemma step_shift_enter (config : Config) (layout : jsstring -> CssHeight -> N)
      (st : State) (el : HTMLTextAreaElement) :
  textareaRef st = Some el ->
  step config layout st (Press (enterKey true)) =
    (rerender layout (input st)
       {| input := value (insertText [lineFeed] el);
          textareaRef := Some (insertText [lineFeed] el) |}, []).
Proof.
  intros Hel. unfold step; rewrite Hel, handleKeyDown_shift_enter.
  cbn [defaultPrevented after sent]. unfold defaultInsertion, enterKey.
  cbn [key]. rewrite jsstring_eqb_refl.
  unfold onChange, withTextarea. rewrite Hel. reflexivity.
Qed.

(** C3. Enter without Shift prevents the default action and runs the
    submission; Enter with Shift prevents nothing, calls nothing and lets
    the line break in, at the selection; typing "Hello" and pressing
    Shift+Enter makes no call and leaves the draft "Hello" followed by a
    line feed. *)
Theorem enter_submits_shift_enter_breaks_line
        (config : Config) (layout : jsstring -> CssHeight -> N)
        (v : jsstring) (el : HTMLTextAreaElement) :
  let st := {| input := v; textareaRef := Some el |} in
  let a := Nat.min (selectionStart el) (List.length (value el)) in
  let b := Nat.max a (selectionEnd el) in
  let hello :=
    run config layout (mount layout)
        (typing (utf16 "Hello") ++ [Press (enterKey true)]) in
  handleKeyDown (enterKey false) st =
    {| defaultPrevented := true;
       after := fst (handleSubmit st);
       sent := snd (handleSubmit st) |}
  /\ step config layout st (Press (enterKey false)) =
       (rerender layout v (fst (handleSubmit st)), snd (handleSubmit st))
  /\ handleKeyDown (enterKey true) st =
       {| defaultPrevented := false; after := st; sent := [] |}
  /\ snd (step config layout st (Press (enterKey true))) = []
  /\ input (fst (step config layout st (Press (enterKey true)))) =
       firstn a (value el) ++ [lineFeed] ++ skipn b (value el)
  /\ (snd hello = [] /\ input (fst hello) = utf16 "Hello" ++ [lineFeed]).
Proof.
  intros st a b hello.
  split; [apply handleKeyDown_enter|].
  split; [apply (step_enter config layout st el eq_refl)|].
  split; [apply handleKeyDown_shift_enter|].
  rewrite (step_shift_enter config layout st el eq_refl). cbn [fst snd].
  split; [reflexivity|].
  split; [rewrite input_rerender; reflexivity|].
  subst hello. split; vm_compute; reflexivity.
Qed.

(** C4. The send button is a function of the trimmed draft alone: when the
    trimmed draft is empty it is disabled and carries the muted classes,
    otherwise it is enabled and carries the emphasised ones; so it is
    enabled exactly when the trimmed draft is not empty. *)
Theorem send_enabled_iff_trimmed_nonempty (config : Config) (st : State) :
  sendButton config st =
    (if jsstring_eqb (trim (input st)) []
     then {| disabled := true;
             className := cn config [CVString sendBase; CVString sendMuted] |}
     else {| disabled := false;
             className :=
               cn config [CVString sendBase; CVString sendEmphasized] |})
  /\ (disabled (sendButton config st) = false <-> trim (input st) <> []).
Proof.
  unfold sendButton, hasContent.
  destruct (jsstring_eqb (trim (input st)) []) eqn:E; cbn [negb disabled].
  - apply jsstring_eqb_eq in E. split; [reflexivity|].
    split; [discriminate | congruence].
  - apply jsstring_eqb_neq in E. split; [reflexivity|]. tauto.
Qed.

(** C5, as stated, fails at the empty draft: it contains no whitespace
    character, yet neither way of submitting it calls [onSend]. *)
Lemma no_whitespace_draft_counterexample :
  let st := mount sampleLayout in
  forallb (fun c => negb (isWhiteSpace c)) (input st) = true
  /\ input st = []
  /\ snd (step sampleConfig sampleLayout st (Press (enterKey false))) = []
  /\ snd (step sampleConfig sampleLayout st ClickSend) = []
  /\ snd (handleSubmit st) <> [input st].
Proof.
  cbv zeta. split; [reflexivity|]. split; [reflexivity|].
  split; [reflexivity|]. split; [reflexivity|]. vm_compute. discriminate.
Qed.

(** C5, amended. For every draft that is not empty and contains no
    whitespace character, each way of triggering a submission calls
    [onSend] exactly once, with the draft, and leaves the draft empty. *)
Theorem no_whitespace_draft_sent
        (config : Config) (layout : jsstring -> CssHeight -> N)
        (v : jsstring) (el : HTMLTextAreaElement) :
  v <> [] ->
  forallb (fun c => negb (isWhiteSpace c)) v = true ->
  let st := {| input := v; textareaRef := Some el |} in
  (snd (step config layout st (Press (enterKey false))) = [v]
   /\ input (fst (step config layout st (Press (enterKey false)))) = [])
  /\ (snd (step config layout st ClickSend) = [v]
      /\ input (fst (step config layout st ClickSend)) = []).
Proof.
  intros Hne Hall st. apply submission_sends.
  apply trim_not_nil. destruct v as [|c r]; [congruence|].
  exists c. split; [now left|].
  cbn [forallb] in Hall. apply andb_true_iff in Hall.
  now apply negb_true_iff.
Qed.

Lemma no_whitespace_draft_sent_witness :
  let v := utf16 "koi" in
  let st := fst (run sampleConfig sampleLayout (mount sampleLayout) (typing v)) in
  snd (step sampleConfig sampleLayout st (Press (enterKey false))) = [v]
  /\ input (fst (step sampleConfig sampleLayout st (Press (enterKey false)))) = [].
Proof.
  refine (proj1
    (no_whitespace_draft_sent sampleConfig sampleLayout (utf16 "koi")
       {| value := utf16 "koi"; style_height := Px 64;
          selectionStart := 3; selectionEnd := 3 |} _ _)).
  - vm_compute. discriminate.
  - vm_compute. reflexivity.
Defined.

Lemma handleSubmit_sent_nonblank (st : State) :
  Forall (fun s => trim s <> []) (snd (handleSubmit st)).
Proof.
  unfold handleSubmit. destruct (nonEmpty (trim (input st))) eqn:E; cbn [snd].
  - constructor; [now apply nonEmpty_true | constructor].
  - constructor.
Qed.

Lemma handleKeyDown_sent_nonblank (e : KeyboardEvent) (st : State) :
  Forall (fun s => trim s <> []) (sent (handleKeyDown e st)).
Proof.
  unfold handleKeyDown.
  destruct (jsstring_eqb (key e) Enter && negb (shiftKey e)).
  - pose proof (handleSubmit_sent_nonblank st) as H.
    destruct (handleSubmit st); exact H.
  - constructor.
Qed.

Lemma step_sent_nonblank (config : Config)
      (layout : jsstring -> CssHeight -> N) (st : State) (ev : UserEvent) :
  Forall (fun s => trim s <> []) (snd (step config layout st ev)).
Proof.
  unfold step. destruct (textareaRef st) as [el|]; [|constructor].
  destruct ev as [e| | |v|a b]; try constructor.
  - pose proof (handleKeyDown_sent_nonblank e st) as H.
    destruct (defaultPrevented (handleKeyDown e st)); [exact H|].
    destruct (defaultInsertion e); exact H.
  - destruct (disabled (sendButton config st)); [constructor|].
    pose proof (handleSubmit_sent_nonblank st) as H.
    destruct (handleSubmit st); exact H.
Qed.

(** C9. Whatever the user does, from any state of the component, every
    string [onSend] is called with has a trimmed form that is not empty: it
    is never the empty string nor a string of whitespace. *)
Theorem onSend_never_receives_blank
        (config : Config) (layout : jsstring -> CssHeight -> N)
        (st : State) (evs : list UserEvent) :
  Forall (fun s => trim s <> [] /\ s <> [] /\ forallb isWhiteSpace s = false)
         (snd (run config layout st evs)).
Proof.
  assert (Hrun : Forall (fun s => trim s <> []) (snd (run config layout st evs))).
  { revert st; induction evs as [|ev rest IH]; intros st; cbn [run].
    - constructor.
    - pose proof (step_sent_nonblank config layout st ev) as Hstep.
      destruct (step config layout st ev) as [st1 calls1].
      specialize (IH st1).
      destruct (run config layout st1 rest) as [st2 calls2].
      cbn [snd] in *. apply Forall_app; split; assumption. }
  eapply Forall_impl; [|exact Hrun].
  intros s Hs. split; [exact Hs|]. split.
  - intros ->. now apply Hs.
  - destruct (forallb isWhiteSpace s) eqn:E; [|reflexivity].
    apply trim_nil in E. contradiction.
Qed.

(** C10. An unmodified Enter always prevents the default action, whatever
    the draft; the draft it leaves is the old one when that is whitespace
    only, and the empty one otherwise, so no line break is ever added. *)
Theorem enter_always_prevents_default
        (config : Config) (layout : jsstring -> CssHeight -> N)
        (v : jsstring) (el : HTMLTextAreaElement) :
  let st := {| input := v; textareaRef := Some el |} in
  defaultPrevented (handleKeyDown (enterKey false) st) = true
  /\ input (fst (step config layout st (Press (enterKey false)))) =
       (if forallb isWhiteSpace v then v else [])
  /\ snd (step config layout st (Press (enterKey false))) =
       (if forallb isWhiteSpace v then [] else [v]).
Proof.
  intros st. rewrite handleKeyDown_enter. split; [reflexivity|].
  rewrite (step_enter config layout st el eq_refl). cbn [fst snd].
  rewrite input_rerender.
  destruct (forallb isWhiteSpace v) eqn:E.
  - apply trim_nil in E. rewrite (handleSubmit_guard st E). now split.
  - assert (H : trim (input st) <> []).
    { intros H. apply trim_nil in H. cbn [input st] in H. congruence. }
    rewrite (handleSubmit_sends st H). now split.
Qed.

(** *** The height of the field *)

Section Height.

Variable config : Config.
Variable layout : jsstring -> CssHeight -> N.

Lemma fittedHeight_le (v : jsstring) : (fittedHeight layout v <= 200)%N.
Proof. unfold fittedHeight. lia. Qed.

Lemma autoResize_fitted (st : State) (el : HTMLTextAreaElement) :
  textareaRef st = Some el -> value el = input st ->
  fitted layout (autoResize layout st).
Proof.
  intros Hel Hv. unfold autoResize; rewrite Hel.
  eexists; split; [reflexivity|].
  unfold fittedHeight, scrollHeight.
  cbn [value style_height set_style_height input].
  rewrite Hv. split; reflexivity.
Qed.

Lemma syncValue_attached (st : State) (el : HTMLTextAreaElement) :
  textareaRef st = Some el ->
  value el = input st \/ normalizeNewlines (input st) = input st ->
  exists el1, textareaRef (syncValue st) = Some el1
              /\ value el1 = input st
              /\ style_height el1 = style_height el.
Proof.
  intros Hel Hn. unfold syncValue; rewrite Hel.
  destruct (jsstring_eqb (value el) (input st)) eqn:E.
  - apply jsstring_eqb_eq in E. exists el. now rewrite Hel.
  - destruct Hn as [Hv | Hn].
    + rewrite Hv, jsstring_eqb_refl in E. discriminate.
    + eexists; split; [reflexivity|]. cbn [value style_height set_value].
      now split.
Qed.

(** A render leaves the field fitted, provided that a draft equal to the
    previous one comes with the height that was fitted to it, and that the
    draft is what the field holds or can be written to it as it is. *)
Lemma rerender_fitted (prev : jsstring) (st : State)
      (el : HTMLTextAreaElement) :
  textareaRef st = Some el ->
  (input st = prev -> style_height el = Px (fittedHeight layout prev)) ->
  value el = input st \/ normalizeNewlines (input st) = input st ->
  fitted layout (rerender layout prev st).
Proof.
  intros Hel Hsame Hn. unfold rerender.
  destruct (syncValue_attached st el Hel Hn) as (el1 & Hel1 & Hv1 & Hh1).
  rewrite input_syncValue.
  destruct (jsstring_eqb prev (input st)) eqn:E.
  - apply jsstring_eqb_eq in E. exists el1.
    rewrite input_syncValue, Hh1, Hsame, E by congruence. auto.
  - apply autoResize_fitted with (el := el1); [exact Hel1|].
    now rewrite input_syncValue.
Qed.

(** What an event leaves behind is the old state, the old state with its
    selection moved, or the render of a state with the textarea attached. *)
Lemma step_cases (st : State) (el : HTMLTextAreaElement) (ev : UserEvent) :
  textareaRef st = Some el ->
  fst (step config layout st ev) = st
  \/ (exists a b, fst (step config layout st ev)
                  = withTextarea (set_selection a b) st)
  \/ (exists st1 el1,
        fst (step config layout st ev) = rerender layout (input st) st1
        /\ textareaRef st1 = Some el1
        /\ (input st1 = input st -> style_height el1 = style_height el)
        /\ (st1 = st \/ value el1 = input st1 \/ input st1 = [])).
Proof.
  intros Hel. unfold step; rewrite Hel.
  assert (Hsub : forall st' calls, handleSubmit st = (st', calls) ->
            exists el1, textareaRef st' = Some el1
              /\ (input st' = input st -> style_height el1 = style_height el)
              /\ (st' = st \/ value el1 = input st' \/ input st' = [])).
  { unfold handleSubmit. intros st' calls.
    destruct (nonEmpty (trim (input st))) eqn:E; intros [= <- <-].
    - rewrite Hel. eexists; split; [reflexivity|]. cbn [input]. split; [|auto].
      intros Hnil. rewrite <- Hnil in E. discriminate.
    - exists el. auto. }
  destruct ev as [e| | |v|a b]; cbn [fst].
  - right; right. unfold handleKeyDown.
    destruct (jsstring_eqb (key e) Enter && negb (shiftKey e)).
    + destruct (handleSubmit st) as [st' calls] eqn:Es.
      cbn [defaultPrevented after sent fst].
      destruct (Hsub _ _ eq_refl) as (el1 & H1 & H2 & H3).
      exists st', el1. auto.
    + cbn [defaultPrevented after sent].
      destruct (defaultInsertion e) as [t|]; cbn [fst].
      * eexists _, _; split; [reflexivity|].
        unfold onChange, withTextarea; rewrite Hel.
        cbn [textareaRef option_map input]. auto.
      * exists st, el. auto.
  - destruct (disabled (sendButton config st)); [now left|].
    right; right. destruct (handleSubmit st) as [st' calls] eqn:Es.
    destruct (Hsub _ _ eq_refl) as (el1 & H1 & H2 & H3).
    exists st', el1. auto.
  - now left.
  - right; right. eexists _, _; split; [reflexivity|].
    unfold onChange, withTextarea; rewrite Hel.
    cbn [textareaRef option_map input style_height set_value]. auto.
  - right; left. now exists a, b.
Qed.

(** The field is fitted after mounting and stays so whatever the user
    does. *)
Lemma step_fitted (st : State) (ev : UserEvent) :
  fitted layout st -> fitted layout (fst (step config layout st ev)).
Proof.
  intros (el & Hel & Hv & Hh).
  destruct (step_cases st el ev Hel)
    as [-> | [(a & b & ->) | (st1 & el1 & -> & Hel1 & Hsame & Hn)]].
  - now exists el.
  - unfold withTextarea; rewrite Hel. eexists; split; [reflexivity|]. auto.
  - apply rerender_fitted with (el := el1); [exact Hel1| |].
    + intros E. now rewrite Hsame, Hh.
    + destruct Hn as [-> | [Hn | Hn]].
      * left. congruence.
      * now left.
      * right. now rewrite Hn.
Qed.

Lemma run_fitted (evs : list UserEvent) :
  fitted layout (fst (run config layout (mount layout) evs)).
Proof.
  assert (H0 : fitted layout (mount layout)).
  { eexists; split; [reflexivity|]. now split. }
  revert H0. generalize (mount layout) as st.
  induction evs as [|ev rest IH]; intros st Hst; cbn [run]; [exact Hst|].
  pose proof (step_fitted st ev Hst) as H1.
  destruct (step config layout st ev) as [st1 calls1].
  specialize (IH st1 H1).
  now destruct (run config layout st1 rest).
Qed.

End Height.

(** C6. An event that changes the draft leaves the textarea showing the new
    draft with the height [min(scrollHeight, 200)], the scroll height
    being measured on the new draft after the height was reset to [auto]:
    the height owes nothing to the one before, is at most 200, and is no
    more than the old height whenever the new content measures no more. *)
Theorem height_recomputed_on_change
        (config : Config) (layout : jsstring -> CssHeight -> N)
        (v : jsstring) (el : HTMLTextAreaElement) (ev : UserEvent) :
  let st := {| input := v; textareaRef := Some el |} in
  let st' := fst (step config layout st ev) in
  input st' <> v ->
  (exists el', textareaRef st' = Some el'
               /\ value el' = input st'
               /\ scrollHeight layout (set_style_height Auto el')
                  = layout (input st') Auto
               /\ style_height el'
                  = Px (N.min (scrollHeight layout (set_style_height Auto el'))
                              200))
  /\ (fittedHeight layout (input st') <= 200)%N
  /\ (forall h, style_height el = Px h ->
                (layout (input st') Auto <= h)%N ->
                (fittedHeight layout (input st') <= h)%N).
Proof.
  intros st st' Hchg. split.
  - assert (Hfit : fitted layout st').
    { subst st'.
      destruct (step_cases config layout st el ev eq_refl)
        as [E | [(a & b & E) | (st1 & el1 & E & Hel1 & _ & Hn)]];
        rewrite E in Hchg |- *.
      - now contradiction Hchg.
      - now contradiction Hchg.
      - rewrite input_rerender in Hchg.
        apply rerender_fitted with (el := el1); [exact Hel1| |].
        + intros Hsame. contradiction.
        + destruct Hn as [-> | [Hn | Hn]].
          * now contradiction Hchg.
          * now left.
          * right. now rewrite Hn. }
    destruct Hfit as (el' & Hel' & Hv' & Hh').
    exists el'. unfold scrollHeight. cbn [value style_height set_style_height].
    rewrite Hv'. auto.
  - split; [apply fittedHeight_le|].
    intros h _ Hle. unfold fittedHeight. lia.
Qed.

Lemma height_recomputed_on_change_witness :
  let tall := utf16 "ink" ++ repeat lineFeed 9 in
  let st := fst (step sampleConfig sampleLayout (mount sampleLayout) (Replace tall)) in
  let st' := fst (step sampleConfig sampleLayout st (Replace (utf16 "ink"))) in
  option_map style_height (textareaRef st) = Some (Px 200)
  /\ option_map style_height (textareaRef st') = Some (Px 64)
  /\ (fittedHeight sampleLayout (input st') <= 200)%N.
Proof.
  split; [reflexivity|]. split; [reflexivity|].
  refine (proj1 (proj2
    (height_recomputed_on_change sampleConfig sampleLayout
       (utf16 "ink" ++ repeat lineFeed 9)
       {| value := utf16 "ink" ++ repeat lineFeed 9; style_height := Px 200;
          selectionStart := 12; selectionEnd := 12 |}
       (Replace (utf16 "ink")) _))).
  vm_compute. discriminate.
Defined.

End PromptInputFacts.

(** ** Class lists: splitting at whitespace and joining *)

Module WordsFacts.

Lemma words_head (c : code_unit) (r : jsstring) :
  isWhiteSpace c = false -> exists w ws, words (c :: r) = (c :: w) :: ws.
Proof.
  intros Hc. cbn [words]. rewrite Hc.
  destruct r as [|d r']; [now exists [], []|].
  destruct (isWhiteSpace d); [now eexists [], _|].
  destruct (words (d :: r')) as [|w ws]; [now exists [], [] | now exists w, ws].
Qed.

Lemma words_cons_space (c : code_unit) (r : jsstring) :
  isWhiteSpace c = true -> words (c :: r) = words r.
Proof. intros Hc. cbn [words]. now rewrite Hc. Qed.

Lemma words_cons_word (c : code_unit) (r : jsstring) :
  isWhiteSpace c = false ->
  words (c :: r) =
    match r with
    | [] => [[c]]
    | d :: _ =>
        if isWhiteSpace d then [c] :: words r
        else match words r with
             | w :: ws => (c :: w) :: ws
             | [] => [[c]]
             end
    end.
Proof. intros Hc. cbn [words]. now rewrite Hc. Qed.

(** Splitting distributes over a whitespace separator. *)
Lemma words_app_space (a b : jsstring) (c : code_unit) :
  isWhiteSpace c = true -> words (a ++ c :: b) = words a ++ words b.
Proof.
  intros Hc. induction a as [|x a IH].
  - change (words (c :: b) = words b). now apply words_cons_space.
  - change ((x :: a) ++ c :: b) with (x :: (a ++ c :: b)).
    destruct (isWhiteSpace x) eqn:Hx.
    + now rewrite !words_cons_space.
    + rewrite !(words_cons_word x) by exact Hx. destruct a as [|d a'].
      * cbn [app]. rewrite Hc, words_cons_space by exact Hc. reflexivity.
      * cbn [app] in *. rewrite IH. destruct (isWhiteSpace d) eqn:Hd; [reflexivity|].
        destruct (words_head d a' Hd) as (w & ws & ->). reflexivity.
Qed.

Lemma words_isWord (s : jsstring) : Forall isWord (words s).
Proof.
  induction s as [|c r IH]; [constructor|].
  cbn [words]. destruct (isWhiteSpace c) eqn:Hc; [exact IH|].
  assert (H1 : isWord [c]) by (split; [discriminate | cbn; now rewrite Hc]).
  destruct r as [|d r']; [now constructor|].
  destruct (isWhiteSpace d); [now constructor|].
  destruct (words (d :: r')) as [|w ws]; [now constructor|].
  inversion IH as [|? ? [Hw1 Hw2] Hws]; subst.
  constructor; [|exact Hws].
  split; [discriminate | cbn [forallb]; now rewrite Hc, Hw2].
Qed.

Lemma words_of_word (w : jsstring) : isWord w -> words w = [w].
Proof.
  intros [Hne Hall]. induction w as [|c r IH]; [congruence|].
  cbn [forallb] in Hall. apply andb_true_iff in Hall as [Hc Hr].
  apply negb_true_iff in Hc. cbn [words]. rewrite Hc.
  destruct r as [|d r']; [reflexivity|].
  assert (Hd : isWhiteSpace d = false).
  { cbn [forallb] in Hr. apply andb_true_iff in Hr as [Hd _].
    now apply negb_true_iff. }
  rewrite Hd, IH; [reflexivity | discriminate | exact Hr].
Qed.

Lemma isWhiteSpace_space : isWhiteSpace space = true.
Proof. reflexivity. Qed.

(** Joining class names and splitting again gives them back. *)
Lemma words_join (l : list jsstring) : Forall isWord l -> words (join l) = l.
Proof.
  induction 1 as [|w l Hw Hl IH]; [reflexivity|].
  destruct l as [|w' l'].
  - now apply words_of_word.
  - change (join (w :: w' :: l')) with (w ++ space :: join (w' :: l')).
    rewrite words_app_space by apply isWhiteSpace_space.
    now rewrite IH, words_of_word.
Qed.

Lemma words_nil_of_empty (s : jsstring) : nonEmpty s = false -> words s = [].
Proof. intros H. apply nonEmpty_false in H. now subst. Qed.

End WordsFacts.

Import WordsFacts.

(** ** [cn]: [clsx] and the merge *)

Module UtilsFacts.

Import Utils.

(** *** [clsx] *)

Lemma words_appendClass (str y : jsstring) :
  words (appendClass str y) = words str ++ words y.
Proof.
  unfold appendClass. destruct (nonEmpty y) eqn:Hy.
  - destruct (nonEmpty str) eqn:Hs.
    + apply words_app_space, isWhiteSpace_space.
    + now rewrite (words_nil_of_empty str Hs).
  - now rewrite (words_nil_of_empty y Hy), app_nil_r.
Qed.

Lemma words_fold_appendClass (items : list ClassValue) (str : jsstring) :
  words (fold_left
           (fun str x => if truthy x then appendClass str (toVal x) else str)
           items str)
  = words str ++ flat_map fragmentClasses items.
Proof.
  revert str; induction items as [|x r IH]; intros str; cbn [fold_left flat_map].
  - now rewrite app_nil_r.
  - rewrite IH. unfold fragmentClasses at 2. destruct (truthy x).
    + now rewrite words_appendClass, <- app_assoc.
    + reflexivity.
Qed.

Lemma clsx_array (inputs : list ClassValue) :
  clsx [CVArray inputs] = toVal (CVArray inputs).
Proof.
  unfold clsx; cbn [fold_left truthy]. unfold appendClass.
  destruct (nonEmpty (toVal (CVArray inputs))) eqn:E; [reflexivity|].
  apply nonEmpty_false in E. now rewrite E.
Qed.

(** The class names [cn] receives are those of its fragments, in order. *)
Lemma classNames_flat (inputs : list ClassValue) :
  classNames inputs = flat_map fragmentClasses inputs.
Proof.
  unfold classNames. rewrite clsx_array. cbn [toVal].
  now rewrite words_fold_appendClass.
Qed.

Lemma classNames_app (xs ys : list ClassValue) :
  classNames (xs ++ ys) = classNames xs ++ classNames ys.
Proof. rewrite !classNames_flat. apply flat_map_app. Qed.

Lemma classNames_cons (x : ClassValue) (ys : list ClassValue) :
  classNames (x :: ys) = fragmentClasses x ++ classNames ys.
Proof. now rewrite !classNames_flat. Qed.

(** Induction on fragments, through the nested collections. *)
Lemma ClassValue_nested_ind (P : ClassValue -> Prop) :
  (forall s, P (CVString s)) -> (forall b, P (CVBoolean b)) ->
  P CVNull -> P CVUndefined ->
  (forall items, Forall P items -> P (CVArray items)) ->
  forall v, P v.
Proof.
  intros Hs Hb Hn Hu Ha. fix IH 1.
  intros [s|b| | |items]; [apply Hs | apply Hb | exact Hn | exact Hu |].
  apply Ha. induction items as [|x r IHr]; constructor; [apply IH | exact IHr].
Qed.

Lemma truthy_prune (v : ClassValue) : truthy (prune v) = truthy v.
Proof. now destruct v. Qed.

Lemma toVal_prune (v : ClassValue) : toVal (prune v) = toVal v.
Proof.
  induction v as [s|b| | |items IH] using ClassValue_nested_ind;
    try reflexivity.
  cbn [prune toVal]. generalize (@nil code_unit) as str.
  induction IH as [|x r Hx _ IHr]; intros str; [reflexivity|].
  cbn [keepTruthy fold_left]. destruct (truthy x) eqn:Ex.
  - cbn [fold_left]. now rewrite truthy_prune, Ex, Hx, <- IHr.
  - apply IHr.
Qed.

Lemma clsx_prune (inputs : list ClassValue) :
  clsx [CVArray (keepTruthy prune inputs)] = clsx [CVArray inputs].
Proof.
  rewrite !clsx_array. exact (toVal_prune (CVArray inputs)).
Qed.

Lemma includes_In (g : jsstring) (l : list jsstring) :
  includes g l = true <-> In g l.
Proof.
  unfold includes. rewrite existsb_exists. split.
  - intros (x & Hx & E). apply jsstring_eqb_eq in E. now subst.
  - intros H. exists g. split; [exact H | apply jsstring_eqb_refl].
Qed.

Lemma includes_false (g : jsstring) (l : list jsstring) :
  includes g l = false <-> ~ In g l.
Proof.
  rewrite <- includes_In. destruct (includes g l); split; congruence.
Qed.

(** *** The merge loop *)

Section Merge.

Variable config : Config.

Lemma mergeLoop_keeps_result (p seen res : list jsstring) (c : jsstring) :
  In c res -> In c (mergeLoop config p seen res).
Proof.
  revert seen res; induction p as [|x p IH]; intros seen res H;
    cbn [mergeLoop]; [exact H|].
  destruct (classGroupId config x) as [g|].
  - destruct (includes g seen); apply IH; [exact H | now right].
  - apply IH. now right.
Qed.

(** The merge invents no class. *)
Lemma mergeLoop_subset (p seen res : list jsstring) (c : jsstring) :
  In c (mergeLoop config p seen res) -> In c p \/ In c res.
Proof.
  revert seen res; induction p as [|x p IH]; intros seen res;
    cbn [mergeLoop]; [now right|].
  destruct (classGroupId config x) as [g|];
    [destruct (includes g seen)|]; intros H; apply IH in H;
    cbn [In] in *; intuition.
Qed.

(** A class that belongs to no category is kept, wherever it stands. *)
Lemma mergeLoop_keeps_plain (p seen res : list jsstring) (c : jsstring) :
  In c p -> classGroupId config c = None ->
  In c (mergeLoop config p seen res).
Proof.
  revert seen res; induction p as [|x p IH]; intros seen res [];
    intros Hc; cbn [mergeLoop].
  - subst x. rewrite Hc. apply mergeLoop_keeps_result. now left.
  - destruct (classGroupId config x) as [g|];
      [destruct (includes g seen)|]; now apply IH.
Qed.

(** A class stays when nothing listed after it overrides it: [later]
    holds the classes after [c], the last one first. *)
Lemma mergeLoop_keeps_unrelated
      (later earlier seen res : list jsstring) (c : jsstring) :
  (forall d, In d later -> ~ overrides config d c) ->
  (forall g, classGroupId config c = Some g -> ~ In g seen) ->
  In c (mergeLoop config (later ++ c :: earlier) seen res).
Proof.
  revert seen res; induction later as [|x later IH]; intros seen res Hno Hseen.
  - cbn [app mergeLoop]. destruct (classGroupId config c) as [g|] eqn:Ec.
    + specialize (Hseen g eq_refl). apply includes_false in Hseen.
      rewrite Hseen. apply mergeLoop_keeps_result. now left.
    + apply mergeLoop_keeps_result. now left.
  - cbn [app mergeLoop].
    assert (Hno' : forall d, In d later -> ~ overrides config d c)
      by (intros d Hd; apply Hno; now right).
    destruct (classGroupId config x) as [gx|] eqn:Ex.
    + destruct (includes gx seen); [now apply IH|].
      apply IH; [exact Hno'|]. intros g Hg Hin.
      cbn [In] in Hin. rewrite in_app_iff in Hin.
      destruct Hin as [E | [Hc | Hs]].
      * apply (Hno x (or_introl eq_refl)). exists g, gx. auto.
      * apply (Hno x (or_introl eq_refl)). exists g, gx. auto.
      * exact (Hseen g Hg Hs).
    + now apply IH.
Qed.

(** A class is dropped once its category has been met: it is as if it had
    not been listed. *)
Lemma mergeLoop_later_wins
      (later earlier seen res : list jsstring) (c g : jsstring) :
  classGroupId config c = Some g ->
  (exists d, In d later /\ classGroupId config d = Some g) \/ In g seen ->
  mergeLoop config (later ++ c :: earlier) seen res
  = mergeLoop config (later ++ earlier) seen res.
Proof.
  intros Hc. revert seen res; induction later as [|x later IH];
    intros seen res H.
  - destruct H as [(d & [] & _) | Hin]. cbn [app mergeLoop].
    apply includes_In in Hin. now rewrite Hc, Hin.
  - cbn [app mergeLoop].
    destruct (classGroupId config x) as [gx|] eqn:Ex.
    + destruct (includes gx seen) eqn:Es.
      * apply IH. destruct H as [(d & [-> | Hd] & Hg) | Hin]; [| |now right].
        -- right. apply includes_In. congruence.
        -- left. now exists d.
      * apply IH. destruct H as [(d & [-> | Hd] & Hg) | Hin].
        -- right. left. congruence.
        -- left. now exists d.
        -- right. right. apply in_or_app. now right.
    + apply IH. destruct H as [(d & [-> | Hd] & Hg) | Hin];
        [congruence | left; now exists d | now right].
Qed.

Lemma mergeClassList_subset (l : list jsstring) (c : jsstring) :
  In c (mergeClassList config l) -> In c l.
Proof.
  unfold mergeClassList. intros H. apply mergeLoop_subset in H.
  destruct H as [H | []]. now apply in_rev.
Qed.

Lemma mergeClassList_isWord (l : list jsstring) :
  Forall isWord l -> Forall isWord (mergeClassList config l).
Proof.
  rewrite !Forall_forall. intros H c Hc.
  apply H. now apply mergeClassList_subset.
Qed.

(** The classes of [cn]'s result are the merge of the classes given. *)
Lemma words_cn (inputs : list ClassValue) :
  words (cn config inputs) = mergeClassList config (classNames inputs).
Proof.
  unfold cn, twMerge, classNames.
  apply words_join, mergeClassList_isWord, words_isWord.
Qed.

End Merge.

Lemma fragmentClasses_word (c : jsstring) :
  isWord c -> fragmentClasses (CVString c) = [c].
Proof.
  intros Hc. unfold fragmentClasses; cbn [truthy toVal].
  pose proof (proj1 Hc) as Hne. apply nonEmpty_true in Hne. rewrite Hne.
  now apply words_of_word.
Qed.

Lemma mergeClassList_later_wins (config : Config)
      (before after : list jsstring) (c d g : jsstring) :
  classGroupId config c = Some g ->
  In d after -> classGroupId config d = Some g ->
  mergeClassList config (before ++ c :: after)
  = mergeClassList config (before ++ after).
Proof.
  intros Hc Hd Hg. unfold mergeClassList.
  rewrite !rev_app_distr. cbn [rev]. rewrite <- app_assoc. cbn [app].
  apply mergeLoop_later_wins with (g := g); [exact Hc|].
  left. exists d. split; [now apply in_rev in Hd | exact Hg].
Qed.

Lemma mergeClassList_keeps_unrelated (config : Config)
      (before after : list jsstring) (c : jsstring) :
  (forall d, In d after -> ~ overrides config d c) ->
  In c (mergeClassList config (before ++ c :: after)).
Proof.
  intros Hno. unfold mergeClassList.
  rewrite rev_app_distr. cbn [rev]. rewrite <- app_assoc. cbn [app].
  apply mergeLoop_keeps_unrelated; [|intros g _ []].
  intros d Hd. apply Hno. now apply in_rev.
Qed.

(** C7. [cn] ignores the falsy entries of its fragments, at every depth;
    every class of its result is one it was given; a class given to it that
    no class listed after it overrides is in the result; a class whose
    category is that of a class listed after it is dropped, as if it had
    not been listed; and, "text-red-500" and "text-blue-500" being of one
    category, [cn("text-red-500", "text-blue-500")] is "text-blue-500",
    which does not contain the class "text-red-500". *)
Theorem cn_later_class_wins (config : Config) (g : jsstring) :
  classGroupId config textRed500 = Some g ->
  classGroupId config textBlue500 = Some g ->
  (forall inputs, cn config (keepTruthy prune inputs) = cn config inputs)
  /\ (forall inputs c,
        In c (words (cn config inputs)) -> In c (classNames inputs))
  /\ (forall inputs before c after,
        classNames inputs = before ++ c :: after ->
        (forall d, In d after -> ~ overrides config d c) ->
        In c (words (cn config inputs)))
  /\ (forall xs ys c d h,
        isWord c -> classGroupId config c = Some h ->
        In d (classNames ys) -> classGroupId config d = Some h ->
        cn config (xs ++ CVString c :: ys) = cn config (xs ++ ys))
  /\ (let merged := cn config [CVString textRed500; CVString textBlue500] in
      merged = textBlue500
      /\ In textBlue500 (words merged) /\ ~ In textRed500 (words merged)).
Proof.
  intros Hred Hblue. split; [|split; [|split; [|split]]].
  - intros inputs. unfold cn. now rewrite clsx_prune.
  - intros inputs c. rewrite words_cn. apply mergeClassList_subset.
  - intros inputs before c after E Hno. rewrite words_cn, E.
    now apply mergeClassList_keeps_unrelated.
  - intros xs ys c d h Hw Hc Hd Hh.
    change (join (mergeClassList config (classNames (xs ++ CVString c :: ys)))
            = join (mergeClassList config (classNames (xs ++ ys)))).
    rewrite !classNames_app, classNames_cons, fragmentClasses_word by exact Hw.
    cbn [app]. f_equal.
    now apply mergeClassList_later_wins with (d := d) (g := h).
  - assert (E : cn config [CVString textRed500; CVString textBlue500]
                = textBlue500).
    { change (join (mergeClassList config [textRed500; textBlue500])
              = textBlue500).
      unfold mergeClassList. cbn [rev app mergeLoop].
      rewrite Hblue. cbn [includes existsb]. rewrite Hred.
      unfold includes. cbn [existsb]. rewrite jsstring_eqb_refl.
      reflexivity. }
    cbv zeta. rewrite E. split; [reflexivity|]. split.
    + vm_compute. now left.
    + vm_compute. intros [H | H]; [discriminate H | exact H].
Qed.

Lemma cn_later_class_wins_witness :
  cn sampleConfig [CVString textRed500; CVString textBlue500] = textBlue500
  /\ cn sampleConfig
        [CVString (utf16 "px-2 text-red-500 flex"); CVBoolean false;
         CVArray [CVNull; CVString (utf16 "p-4  text-white")]]
     = utf16 "flex p-4 text-white".
Proof.
  split; [|reflexivity].
  refine (proj1 (proj2 (proj2 (proj2 (proj2
    (cn_later_class_wins sampleConfig (utf16 "text-color") _ _)))))).
  - reflexivity.
  - reflexivity.
Defined.

End UtilsFacts.

(** ** The decorative shapes *)

Module ShapeFacts.

Import Utils UtilsFacts.

Lemma cn_classes_given (config : Config) (inputs : list ClassValue)
      (c : jsstring) :
  In c (words (cn config inputs)) -> In c (classNames inputs).
Proof. rewrite words_cn. apply mergeClassList_subset. Qed.

(** A class that none of the fragments names is not in [cn]'s result. *)
Lemma cn_lacks (config : Config) (inputs : list ClassValue) (c : jsstring) :
  includes c (classNames inputs) = false ->
  includes c (words (cn config inputs)) = false.
Proof.
  rewrite !includes_false. intros H Hin. apply H.
  now apply cn_classes_given in Hin.
Qed.

Lemma inheritedByShapes_auto (config : Config) :
  Page.inheritedByShapes config = PEAuto.
Proof. reflexivity. Qed.

(** An element without [pointer-events-none] under a parent that takes
    pointer events takes them too. *)
Lemma pointerEvents_auto (n : Node) :
  includes pointerEventsNone (classList n) = false ->
  pointerEvents PEAuto n = PEAuto.
Proof.
  intros H. unfold pointerEvents. rewrite H.
  now destruct (includes pointerEventsAuto (classList n)).
Qed.

Lemma interceptsPointer_root (inherited : PointerEvents) (n : Node) :
  pointerEvents inherited n = PEAuto -> interceptsPointer inherited n = true.
Proof. destruct n. cbn [interceptsPointer]. now intros ->. Qed.

Lemma shape_binds_nothing (config : Config) (p : Shape.Props) :
  includes pointerEventsNone
    (classNames [CVString (utf16 "absolute"); Shape.fragment (Shape.className p)])
  = false ->
  includes pointerEventsNone (words (Shape.gradientOf p)) = false ->
  Page.shapeBindsNothing config p.
Proof.
  intros Hroot Hgrad.
  assert (H1 : includes pointerEventsNone
                 (classList (Shape.ElegantShape config p)) = false)
    by (apply cn_lacks; exact Hroot).
  split.
  - cbn [Shape.ElegantShape nodes flat_map app].
    constructor; [split; [reflexivity | exact H1]|].
    constructor; [split; reflexivity|].
    constructor; [split; [reflexivity|] | constructor].
    cbn [classList classOf].
    apply cn_lacks. rewrite classNames_flat.
      cbn [flat_map]. unfold includes. rewrite !existsb_app.
      change (fragmentClasses (CVString (Shape.gradientOf p)))
        with (if nonEmpty (Shape.gradientOf p)
              then words (Shape.gradientOf p) else []).
      destruct (nonEmpty (Shape.gradientOf p)).
      -- fold (includes pointerEventsNone (words (Shape.gradientOf p))).
         rewrite Hgrad. reflexivity.
      -- reflexivity.
  - rewrite inheritedByShapes_auto.
    apply interceptsPointer_root, pointerEvents_auto, H1.
Qed.

(** C8, as stated, fails on every shape of the page: the markup of a
    shape carries no [pointer-events-none], so the shape is a target of
    pointer events. *)
Lemma shapes_intercept_pointer_counterexample :
  Forall (fun p => ~ Page.shapeIgnoresPointer sampleConfig p) Page.shapes
  /\ Page.shapes <> [].
Proof.
  split; [|discriminate]. unfold Page.shapes.
  repeat (apply Forall_cons;
          [unfold Page.shapeIgnoresPointer; vm_compute; discriminate|]).
  apply Forall_nil.
Qed.

Lemma nodes_self (n : Node) : In n (nodes n).
Proof. destruct n. cbn [nodes]. now left. Qed.

Lemma nodes_child (n c m : Node) :
  In c (childrenOf n) -> In m (nodes c) -> In m (nodes n).
Proof.
  destruct n as [t cls h k]. cbn [childrenOf nodes]. intros Hc Hm.
  right. apply in_flat_map. now exists c.
Qed.

(** Every shape of the page is an element of the rendered page. *)
Lemma shapes_rendered (config : Config) (content : list Node)
      (p : Shape.Props) :
  In p Page.shapes ->
  In (Shape.ElegantShape config p) (nodes (Page.PromptPage config content)).
Proof.
  intros Hp.
  apply nodes_child with (c := Page.shapesLayer config);
    [cbn [Page.PromptPage childrenOf]; auto with datatypes|].
  apply nodes_child with (c := Shape.ElegantShape config p);
    [|apply nodes_self].
  cbn [Page.shapesLayer childrenOf]. now apply in_map.
Qed.

(** C8, amended. Each of the four shapes of the page is inert in that none
    of its elements binds an event handler. None of these elements carries
    [pointer-events-none], whatever the class table, and neither does the
    shapes' container nor the page root, under which every shape is
    rendered (the bottom overlay of the page does carry it, and takes no
    pointer events); so each shape stays a target of pointer events. *)
Theorem shapes_bind_no_handlers (config : Config) :
  Forall (Page.shapeBindsNothing config) Page.shapes
  /\ List.length Page.shapes = 4%nat
  /\ (forall content : list Node,
        let page := Page.PromptPage config content in
        let overlay := El "div" Page.overlayClass [] [] in
        Forall (fun p => In (Shape.ElegantShape config p) (nodes page))
               Page.shapes
        /\ includes pointerEventsNone (classList page) = false
        /\ includes pointerEventsNone (classList (Page.shapesLayer config))
           = false
        /\ In overlay (childrenOf page)
        /\ includes pointerEventsNone (classList overlay) = true
        /\ interceptsPointer (pointerEvents PEAuto page) overlay = false).
Proof.
  split; [|split; [reflexivity|]].
  - unfold Page.shapes.
    repeat (apply Forall_cons;
            [apply shape_binds_nothing; vm_compute; reflexivity|]).
    apply Forall_nil.
  - intros content page overlay. split; [|split; [|split; [|split; [|split]]]].
    + apply Forall_forall. intros p Hp. now apply shapes_rendered.
    + reflexivity.
    + reflexivity.
    + subst page overlay. cbn [Page.PromptPage childrenOf].
      auto with datatypes.
    + reflexivity.
    + reflexivity.
Qed.

End ShapeFacts.

(** ** Sessions of the prompt input *)

Module SessionFacts.

Import Utils PromptInput PromptInputFacts.

Lemma isSubmission_cases (ev : UserEvent) :
  isSubmission ev = true -> ev = Press (enterKey false) \/ ev = ClickSend.
Proof.
  destruct ev as [[k s]| | |v|a b]; cbn [isSubmission key shiftKey];
    try discriminate; [|now right].
  intros H. apply andb_true_iff in H as [Hk Hs].
  apply jsstring_eqb_eq in Hk. apply negb_true_iff in Hs. subst. now left.
Qed.

Lemma blank_trim (s : jsstring) : blank s = negb (nonEmpty (trim s)).
Proof.
  unfold blank. destruct (forallb isWhiteSpace s) eqn:E.
  - apply trim_nil in E. now rewrite E.
  - destruct (trim s) eqn:T; [|reflexivity].
    apply trim_nil in T. congruence.
Qed.

Section Session.

Variable config : Config.
Variable layout : jsstring -> CssHeight -> N.

(** The calls an event makes, read off the event and the state. *)
Lemma step_sent_exact (st : State) (ev : UserEvent) :
  snd (step config layout st ev) =
    if isSubmission ev && attached st && negb (blank (input st))
    then [input st] else [].
Proof.
  rewrite blank_trim, negb_involutive. unfold step, attached.
  destruct (textareaRef st) as [el|]; [|now rewrite andb_false_r].
  rewrite andb_true_r.
  destruct ev as [e| | |v|a b]; cbn [isSubmission andb]; try reflexivity.
  - unfold handleKeyDown.
    destruct (jsstring_eqb (key e) Enter && negb (shiftKey e)); cbn [andb].
    + unfold handleSubmit.
      now destruct (nonEmpty (trim (input st))).
    + cbn [defaultPrevented sent]. now destruct (defaultInsertion e).
  - cbn [disabled sendButton]. rewrite hasContent_trim. unfold handleSubmit.
    now destruct (nonEmpty (trim (input st))).
Qed.

(** Whatever an event does, the draft it leaves is empty if it sent. *)
Lemma step_sent_clears (st : State) (ev : UserEvent) :
  snd (step config layout st ev) <> [] ->
  input (fst (step config layout st ev)) = [].
Proof.
  unfold step. destruct (textareaRef st) as [el|]; [|now intros []].
  destruct ev as [e| | |v|a b]; cbn [snd]; try (now intros []).
  - unfold handleKeyDown.
    destruct (jsstring_eqb (key e) Enter && negb (shiftKey e)).
    + unfold handleSubmit. destruct (nonEmpty (trim (input st)));
        cbn [defaultPrevented after sent fst snd]; [|now intros []].
      intros _. now rewrite input_rerender.
    + cbn [defaultPrevented after sent].
      destruct (defaultInsertion e); cbn [snd]; now intros [].
  - destruct (disabled (sendButton config st)); [now intros []|].
    unfold handleSubmit. destruct (nonEmpty (trim (input st)));
      cbn [fst snd]; [|now intros []].
    intros _. now rewrite input_rerender.
Qed.

(** After a submission event the draft of a mounted input is blank. *)
Lemma submission_leaves_blank (v : jsstring) (el : HTMLTextAreaElement)
      (ev : UserEvent) :
  isSubmission ev = true ->
  blank (input (fst (step config layout
                          {| input := v; textareaRef := Some el |} ev)))
  = true.
Proof.
  intros H. set (st := {| input := v; textareaRef := Some el |}).
  destruct (isSubmission_cases ev H) as [-> | ->].
  - rewrite (step_enter config layout st el eq_refl). cbn [fst].
    rewrite input_rerender. unfold handleSubmit.
    destruct (nonEmpty (trim (input st))) eqn:T; cbn [fst input];
      [reflexivity|].
    rewrite blank_trim. now rewrite T.
  - rewrite (step_click config layout st el eq_refl), hasContent_trim.
    unfold handleSubmit.
    destruct (nonEmpty (trim (input st))) eqn:T; cbn [fst input].
    + now rewrite input_rerender.
    + rewrite blank_trim. now rewrite T.
Qed.

Lemma run_app (st : State) (evs1 evs2 : list UserEvent) :
  run config layout st (evs1 ++ evs2) =
    (fst (run config layout (fst (run config layout st evs1)) evs2),
     snd (run config layout st evs1)
     ++ snd (run config layout (fst (run config layout st evs1)) evs2)).
Proof.
  revert st; induction evs1 as [|ev evs1 IH]; intros st; cbn [app run].
  - cbn [fst snd app]. now destruct (run config layout st evs2).
  - destruct (step config layout st ev) as [st1 calls1].
    rewrite IH.
    destruct (run config layout st1 evs1) as [st2 calls2]. cbn [fst snd].
    now rewrite app_assoc.
Qed.

End Session.

Section Settled.

Variable config : Config.
Variable layout : jsstring -> CssHeight -> N.

Lemma rerender_synced (prev : jsstring) (st : State)
      (el : HTMLTextAreaElement) :
  textareaRef st = Some el -> value el = input st ->
  rerender layout prev st =
    if jsstring_eqb prev (input st) then st else autoResize layout st.
Proof.
  intros Hel Hv. unfold rerender, syncValue.
  now rewrite Hel, Hv, jsstring_eqb_refl.
Qed.

Lemma mount_settled : mount layout = settled layout [].
Proof. reflexivity. Qed.

Lemma settled_fitted (v : jsstring) : fitted layout (settled layout v).
Proof. exists (settledField layout v). now repeat split. Qed.

(** A submission on a fitted state: nothing for a blank draft, otherwise
    one call with the draft, and the component is as it was when mounted. *)
Lemma step_fitted_submission (st : State) (ev : UserEvent) :
  fitted layout st -> isSubmission ev = true ->
  step config layout st ev =
    if blank (input st) then (st, []) else (mount layout, [input st]).
Proof.
  intros (el & Hel & Hv & Hh) Hev.
  assert (Hsub :
    (rerender layout (input st) (fst (handleSubmit st)), snd (handleSubmit st))
    = if blank (input st) then (st, []) else (mount layout, [input st])).
  { rewrite blank_trim. unfold handleSubmit.
    destruct (nonEmpty (trim (input st))) eqn:T; cbn [negb fst snd].
    - f_equal. rewrite Hel. cbn [option_map].
      destruct st as [v r]; cbn [input textareaRef] in *.
      destruct el as [val h a b]; cbn [value style_height] in *. subst val.
      destruct v as [|c w]; [discriminate T|]. reflexivity.
    - f_equal. rewrite (rerender_synced _ st el Hel Hv).
      now rewrite jsstring_eqb_refl. }
  destruct (isSubmission_cases ev Hev) as [-> | ->].
  - rewrite (step_enter config layout st el Hel). exact Hsub.
  - rewrite (step_click config layout st el Hel), hasContent_trim.
    destruct (nonEmpty (trim (input st))) eqn:T; [exact Hsub|].
    now rewrite blank_trim, T.
Qed.

Lemma step_settled_replace (v m : jsstring) :
  step config layout (settled layout v) (Replace m)
  = (settled layout (normalizeNewlines m), []).
Proof.
  unfold step, settled; cbn [textareaRef input]. f_equal.
  unfold onChange, withTextarea; cbn [textareaRef option_map value set_value].
  erewrite rerender_synced; [|reflexivity|reflexivity]. cbn [input].
  destruct (jsstring_eqb v (normalizeNewlines m)) eqn:E.
  - apply jsstring_eqb_eq in E. subst v. reflexivity.
  - reflexivity.
Qed.

Lemma neq_app_self (v t : jsstring) : t <> [] -> jsstring_eqb v (v ++ t) = false.
Proof.
  intros Ht. apply jsstring_eqb_neq. intros E.
  apply (f_equal (@List.length _)) in E. rewrite length_app in E.
  destruct t; [congruence | cbn [List.length] in E; lia].
Qed.

Lemma insertText_settled (v t : jsstring) :
  insertText t (settledField layout v)
  = {| value := v ++ t; style_height := Px (fittedHeight layout v);
       selectionStart := List.length (v ++ t);
       selectionEnd := List.length (v ++ t) |}.
Proof.
  unfold insertText, settledField;
    cbn [value style_height selectionStart selectionEnd].
  rewrite Nat.min_id, Nat.max_id, firstn_all, skipn_all, app_nil_r.
  now rewrite length_app.
Qed.

(** A key press that is not a submission and inserts [t] at the end. *)
Lemma step_settled_insert (v t : jsstring) (e : KeyboardEvent) :
  isSubmission (Press e) = false -> defaultInsertion e = Some t -> t <> [] ->
  step config layout (settled layout v) (Press e)
  = (settled layout (v ++ t), []).
Proof.
  intros Hsub Hins Ht. unfold step, settled; cbn [textareaRef input].
  unfold handleKeyDown. cbn [isSubmission] in Hsub. rewrite Hsub.
  cbn [defaultPrevented after sent]. rewrite Hins. f_equal.
  rewrite insertText_settled.
  unfold onChange, withTextarea; cbn [textareaRef option_map value].
  erewrite rerender_synced; [|reflexivity|reflexivity]. cbn [input].
  rewrite (neq_app_self v t Ht). reflexivity.
Qed.

Lemma key_char_not_enter (c : code_unit) : jsstring_eqb [c] Enter = false.
Proof. unfold Enter. cbn [utf16 jsstring_eqb]. apply andb_false_r. Qed.

Lemma run_settled_typing (s v : jsstring) :
  run config layout (settled layout v) (typing s)
  = (settled layout (v ++ s), []).
Proof.
  revert v; induction s as [|c s IH]; intros v.
  - cbn [typing map run]. now rewrite app_nil_r.
  - cbn [typing map run]. fold (typing s).
    rewrite (step_settled_insert v [c]);
      [| cbn [isSubmission key]; now rewrite key_char_not_enter
       | unfold defaultInsertion; cbn [key]; now rewrite key_char_not_enter
       | discriminate ].
    rewrite IH. now rewrite <- app_assoc.
Qed.

Lemma step_settled_shift_enter (v : jsstring) :
  step config layout (settled layout v) (Press (enterKey true))
  = (settled layout (v ++ [lineFeed]), []).
Proof.
  apply step_settled_insert; [|reflexivity|discriminate].
  cbn [isSubmission enterKey key shiftKey]. apply andb_false_r.
Qed.

End Settled.

Lemma blank_app_lineFeed (s t : jsstring) :
  blank (s ++ lineFeed :: t) = blank s && blank t.
Proof. unfold blank. now rewrite forallb_app. Qed.

Lemma normalizeNewlines_cons (c : code_unit) (r : jsstring) :
  normalizeNewlines (c :: r) =
    if N.eqb c carriageReturn then
      lineFeed :: match r with
                  | d :: r' =>
                      if N.eqb d lineFeed then normalizeNewlines r'
                      else normalizeNewlines r
                  | [] => []
                  end
    else c :: normalizeNewlines r.
Proof. reflexivity. Qed.

Lemma blank_cons (c : code_unit) (s : jsstring) :
  blank (c :: s) = isWhiteSpace c && blank s.
Proof. reflexivity. Qed.

(** Normalising the newlines of a text does not change whether it is
    blank. *)
Lemma blank_normalizeNewlines (s : jsstring) :
  blank (normalizeNewlines s) = blank s.
Proof.
  assert (H : forall n s, (List.length s <= n)%nat ->
                          blank (normalizeNewlines s) = blank s).
  { clear s. induction n as [|n IH]; intros [|c r] Hlen;
      try reflexivity; cbn [List.length] in Hlen; [lia|].
    rewrite normalizeNewlines_cons.
    destruct (N.eqb c carriageReturn) eqn:Ec.
    - apply N.eqb_eq in Ec. subst c. destruct r as [|d r']; [reflexivity|].
      cbn [List.length] in Hlen.
      destruct (N.eqb d lineFeed) eqn:Ed.
      + apply N.eqb_eq in Ed. subst d.
        rewrite !blank_cons, IH by lia. reflexivity.
      + rewrite !(blank_cons lineFeed), !(blank_cons carriageReturn).
        rewrite IH by (cbn [List.length]; lia). reflexivity.
    - rewrite !blank_cons, IH by lia. reflexivity. }
  apply (H (List.length s)). lia.
Qed.

(** A text without carriage returns is its own normal form. *)
Lemma normalizeNewlines_id (s : jsstring) :
  ~ In carriageReturn s -> normalizeNewlines s = s.
Proof.
  induction s as [|c r IH]; intros Hno; [reflexivity|].
  rewrite normalizeNewlines_cons.
  destruct (N.eqb c carriageReturn) eqn:Ec.
  - apply N.eqb_eq in Ec. exfalso. apply Hno. now left.
  - rewrite IH; [reflexivity|]. intros Hin. apply Hno. now right.
Qed.

Lemma run_rounds (config : Config) (layout : jsstring -> CssHeight -> N)
      (msgs : list jsstring) (v : jsstring) :
  snd (run config layout (settled layout v) (flat_map sendRound msgs))
  = map normalizeNewlines (filter (fun m => negb (blank m)) msgs).
Proof.
  revert v; induction msgs as [|m msgs IH]; intros v; [reflexivity|].
  cbn [flat_map sendRound app run filter].
  rewrite step_settled_replace.
  rewrite (step_fitted_submission config layout
             (settled layout (normalizeNewlines m)) ClickSend
             (settled_fitted layout _) eq_refl).
  cbn [input settled]. rewrite blank_normalizeNewlines.
  destruct (blank m); cbn [negb map].
  - specialize (IH (normalizeNewlines m)).
    destruct (run config layout (settled layout (normalizeNewlines m))
                  (flat_map sendRound msgs)).
    exact IH.
  - rewrite mount_settled. specialize (IH []).
    destruct (run config layout (settled layout []) (flat_map sendRound msgs)).
    cbn [snd app] in *. now rewrite IH.
Qed.

(** X1. After mounting and whatever the user then does, the textarea is
    attached, holds exactly the draft, and its inline height is
    [min(scrollHeight, 200)] for that draft, the scroll height being the one
    measured at height [auto]; so the height is never above 200. *)
Theorem field_shows_draft_and_fits
        (config : Config) (layout : jsstring -> CssHeight -> N)
        (evs : list UserEvent) :
  let st := fst (run config layout (mount layout) evs) in
  exists el, textareaRef st = Some el
             /\ value el = input st
             /\ style_height el = Px (N.min (layout (input st) Auto) 200)
             /\ (N.min (layout (input st) Auto) 200 <= 200)%N.
Proof.
  intros st. destruct (run_fitted config layout evs) as (el & Hel & Hv & Hh).
  exists el. repeat split; try assumption. lia.
Qed.

(** X2. An event calls [onSend] exactly when it is a submission (Enter
    without Shift, or a click on the send button), the textarea is attached
    and the draft is not blank; the call is then the only one, its argument
    is the draft, and the draft is left empty. No other event calls it. *)
Theorem onSend_called_exactly_on_submission
        (config : Config) (layout : jsstring -> CssHeight -> N)
        (st : State) (ev : UserEvent) :
  let sends := isSubmission ev && attached st && negb (blank (input st)) in
  snd (step config layout st ev) = (if sends then [input st] else [])
  /\ (sends = true -> input (fst (step config layout st ev)) = []).
Proof.
  intros sends. pose proof (step_sent_exact config layout st ev) as H.
  fold sends in H. split; [exact H|].
  intros Hs. apply step_sent_clears. rewrite H, Hs. discriminate.
Qed.

(** X3. Over any sequence of events, from any state, [onSend] is called at
    most once per submission event. *)
Theorem onSend_calls_bounded_by_submissions
        (config : Config) (layout : jsstring -> CssHeight -> N)
        (st : State) (evs : list UserEvent) :
  (List.length (snd (run config layout st evs))
   <= List.length (filter isSubmission evs))%nat.
Proof.
  revert st; induction evs as [|ev evs IH]; intros st; cbn [run filter].
  - cbn. lia.
  - pose proof (step_sent_exact config layout st ev) as H.
    destruct (step config layout st ev) as [st1 calls1]. cbn [snd] in H.
    specialize (IH st1).
    destruct (run config layout st1 evs) as [st2 calls2]. cbn [snd] in *.
    rewrite length_app, H.
    destruct (isSubmission ev); cbn [andb].
    + destruct (attached st && negb (blank (input st))); cbn [List.length]; lia.
    + cbn [List.length]. lia.
Qed.

(** X4. Two submissions in a row send at most once: whatever the first one
    did, the second one calls nothing. *)
Theorem second_submission_sends_nothing
        (config : Config) (layout : jsstring -> CssHeight -> N)
        (v : jsstring) (el : HTMLTextAreaElement) (s1 s2 : UserEvent) :
  isSubmission s1 = true -> isSubmission s2 = true ->
  let st := {| input := v; textareaRef := Some el |} in
  snd (run config layout st [s1; s2]) = snd (step config layout st s1).
Proof.
  intros H1 H2 st. cbn [run].
  pose proof (submission_leaves_blank config layout v el s1 H1) as Hb.
  fold st in Hb.
  destruct (step config layout st s1) as [st1 calls1]. cbn [fst snd] in *.
  pose proof (step_sent_exact config layout st1 s2) as H.
  rewrite Hb, andb_false_r in H.
  destruct (step config layout st1 s2) as [st2 calls2]. cbn [snd] in *.
  subst calls2. now rewrite app_nil_r.
Qed.

Lemma second_submission_sends_nothing_witness :
  let st := settled sampleLayout (utf16 "a rose") in
  snd (run sampleConfig sampleLayout st [Press (enterKey false); ClickSend])
  = [utf16 "a rose"].
Proof.
  exact (second_submission_sends_nothing sampleConfig sampleLayout
           (utf16 "a rose") (settledField sampleLayout (utf16 "a rose"))
           (Press (enterKey false)) ClickSend eq_refl eq_refl).
Defined.

(** X5. In every state the user can reach, the Enter key and the send
    button do the same thing: nothing when the draft is blank, and
    otherwise one call of [onSend] with the draft, after which the component
    is exactly as it was when mounted. *)
Theorem enter_and_click_agree_when_reachable
        (config : Config) (layout : jsstring -> CssHeight -> N)
        (evs : list UserEvent) :
  let st := fst (run config layout (mount layout) evs) in
  step config layout st (Press (enterKey false)) = step config layout st ClickSend
  /\ step config layout st ClickSend =
       (if blank (input st) then (st, []) else (mount layout, [input st])).
Proof.
  intros st. pose proof (run_fitted config layout evs) as Hfit. fold st in Hfit.
  rewrite (step_fitted_submission config layout st (Press (enterKey false))
             Hfit eq_refl).
  rewrite (step_fitted_submission config layout st ClickSend Hfit eq_refl).
  now split.
Qed.

(** X6. The send button is enabled exactly when pressing Enter would send:
    on a mounted input, Enter calls [onSend] with the draft if the button
    is enabled and calls nothing if it is disabled. *)
Theorem send_enabled_iff_enter_sends
        (config : Config) (layout : jsstring -> CssHeight -> N)
        (v : jsstring) (el : HTMLTextAreaElement) :
  let st := {| input := v; textareaRef := Some el |} in
  snd (step config layout st (Press (enterKey false))) =
    (if disabled (sendButton config st) then [] else [v]).
Proof.
  intros st. rewrite step_sent_exact. cbn [disabled sendButton].
  rewrite hasContent_trim, blank_trim. cbn [isSubmission enterKey key shiftKey].
  rewrite jsstring_eqb_refl. cbn [negb andb attached textareaRef st input].
  now destruct (nonEmpty (trim v)).
Qed.

(** X7. After a submission event on a mounted input the send button is
    disabled, whether or not something was sent. *)
Theorem send_disabled_after_submission
        (config : Config) (layout : jsstring -> CssHeight -> N)
        (v : jsstring) (el : HTMLTextAreaElement) (ev : UserEvent) :
  isSubmission ev = true ->
  disabled (sendButton config
              (fst (step config layout
                         {| input := v; textareaRef := Some el |} ev)))
  = true.
Proof.
  intros H. cbn [disabled sendButton]. rewrite hasContent_trim.
  pose proof (submission_leaves_blank config layout v el ev H) as Hb.
  rewrite blank_trim in Hb. exact Hb.
Qed.

Lemma send_disabled_after_submission_witness :
  disabled (sendButton sampleConfig
              (fst (step sampleConfig sampleLayout
                         (settled sampleLayout (utf16 "a rose")) ClickSend)))
  = true
  /\ disabled (sendButton sampleConfig (settled sampleLayout (utf16 "a rose")))
     = false.
Proof.
  split; [|reflexivity].
  exact (send_disabled_after_submission sampleConfig sampleLayout
           (utf16 "a rose") (settledField sampleLayout (utf16 "a rose"))
           ClickSend eq_refl).
Defined.

(** X8. Typing any text into a freshly mounted input, one key each, makes
    it the draft and the content of the field, fitted and with the caret at
    its end, and calls nothing. *)
Theorem typing_fills_draft
        (config : Config) (layout : jsstring -> CssHeight -> N)
        (s : jsstring) :
  run config layout (mount layout) (typing s) = (settled layout s, []).
Proof. rewrite mount_settled. apply (run_settled_typing config layout s []). Qed.

(** X9. Typing any text and pressing Enter: a blank text stays in the
    field and nothing is sent; any other text is sent once, as typed, and
    the component is as it was when mounted. *)
Theorem typing_then_enter
        (config : Config) (layout : jsstring -> CssHeight -> N)
        (s : jsstring) :
  run config layout (mount layout) (typing s ++ [Press (enterKey false)])
  = if blank s then (settled layout s, []) else (mount layout, [s]).
Proof.
  rewrite run_app, mount_settled, (run_settled_typing config layout s []).
  cbn [fst snd app run].
  rewrite (step_fitted_submission config layout (settled layout s)
             (Press (enterKey false)) (settled_fitted layout s) eq_refl).
  cbn [input settled]. destruct (blank s); cbn [fst snd]; now rewrite ?app_nil_r.
Qed.

(** X10. Shift+Enter composes a message of several lines: typing [s],
    pressing Shift+Enter, typing [t] and pressing Enter sends, once, [s], a
    line feed and [t], unless both are blank, in which case nothing is sent
    and the text stays. *)
Theorem shift_enter_composes_multiline
        (config : Config) (layout : jsstring -> CssHeight -> N)
        (s t : jsstring) :
  run config layout (mount layout)
      (typing s ++ Press (enterKey true) :: typing t
         ++ [Press (enterKey false)])
  = if blank s && blank t
    then (settled layout (s ++ lineFeed :: t), [])
    else (mount layout, [s ++ lineFeed :: t]).
Proof.
  rewrite run_app, mount_settled, (run_settled_typing config layout s []).
  cbn [fst snd app run]. rewrite step_settled_shift_enter.
  rewrite run_app, run_settled_typing. cbn [fst snd app run].
  rewrite <- app_assoc. cbn [app].
  rewrite (step_fitted_submission config layout
             (settled layout (s ++ lineFeed :: t))
             (Press (enterKey false)) (settled_fitted layout _) eq_refl).
  cbn [input settled]. rewrite blank_app_lineFeed.
  destruct (blank s && blank t); reflexivity.
Qed.

(** X11. A session of rounds, each giving the field a message and clicking
    the send button, calls [onSend] with exactly the messages that are not
    blank, in order, each as the textarea hands it over: with its newlines
    normalised to line feeds. Messages without carriage returns are
    therefore sent unchanged. *)
Theorem rounds_deliver_nonblank_messages
        (config : Config) (layout : jsstring -> CssHeight -> N)
        (msgs : list jsstring) :
  let sent := snd (run config layout (mount layout) (flat_map sendRound msgs)) in
  sent = map normalizeNewlines (filter (fun m => negb (blank m)) msgs)
  /\ ((forall m, In m msgs -> ~ In carriageReturn m) ->
      sent = filter (fun m => negb (blank m)) msgs).
Proof.
  intros sent. subst sent. rewrite mount_settled, run_rounds.
  split; [reflexivity|]. intros Hno.
  rewrite <- (map_id (filter _ msgs)) at 2. apply map_ext_in.
  intros m Hm. apply filter_In in Hm as [Hm _].
  apply normalizeNewlines_id. now apply Hno.
Qed.

(** X12. The auto-resize effect is idempotent: because it resets the height
    to [auto] before measuring, running it twice in a row, as happens on
    mount under [StrictMode], leaves the state one run leaves; and a render
    that does not change the draft of a reachable state changes nothing. *)
Theorem autoResize_idempotent
        (config : Config) (layout : jsstring -> CssHeight -> N)
        (st : State) (evs : list UserEvent) :
  autoResize layout (autoResize layout st) = autoResize layout st
  /\ autoResize layout (mount layout) = mount layout
  /\ (let reached := fst (run config layout (mount layout) evs) in
      rerender layout (input reached) reached = reached
      /\ autoResize layout reached = reached).
Proof.
  split; [|split; [reflexivity|]].
  - unfold autoResize at 2 3. destruct (textareaRef st) as [el|] eqn:Hel.
    + reflexivity.
    + unfold autoResize. now rewrite Hel.
  - intros reached.
    destruct (run_fitted config layout evs) as (el & Hel & Hv & Hh).
    fold reached in Hel, Hv, Hh. split.
    + rewrite (rerender_synced layout _ reached el Hel Hv).
      now rewrite jsstring_eqb_refl.
    + unfold autoResize. rewrite Hel.
      destruct reached as [v r]; cbn [input textareaRef] in *. subst r.
      destruct el as [val h a b]; cbn [value style_height] in *. subst val h.
      reflexivity.
Qed.

End SessionFacts.
